(** * pman: command construction and backend dispatch ([pman/resources.py])

    A shallow embedding of the request handlers of [pman/resources.py]:
    [get_compute_mgr], [JobListResource.build_app_cmd], [JobListResource.post],
    [JobResource.get] and [JobResource.delete], followed by the properties of
    the specification that concern them.

    Conventions of the embedding.
    - A Python [str] is a [string]; a character is a code point below 256.
    - A Python exception is a value of [exn]; a computation that may raise
      returns a [result].
    - The handlers talk to a compute manager.  The concrete managers live
      outside [resources.py]; their behaviour is a parameter (the class
      [AbstractManager]) and every call made to them is recorded in a trace.
    - [logger.info] / [logger.error] calls have no effect on any result and
      are left out. *)

From Stdlib Require Import ZArith Ascii String Lia.
From stdpp Require Import base list strings gmap.

(** Modelled from the spec: the exception class [ManagerException] of
    [pman/abstractmgr.py], which [resources.py] imports; the sources at hand
    do not include it.  The specification's BackendFailure: a status code
    and a detail message, the text that [str(e)] gives. *)
Record ManagerException : Type := mk_ManagerException {
  detail : string;
  status_code : Z
}.

Definition str (e : ManagerException) : string := detail e.

(** ** Python primitives used by the handlers *)
Module Py.

(** Exceptions that the handlers can meet. *)
Inductive exn : Type :=
| IndexError
| AttributeError
| TypeError
| KeyError
| ManagerError (e : ManagerException)
| HTTPException (code : Z) (message : string)
| LookupError.

Inductive result (A : Type) : Type :=
| Ok (a : A)
| Raise (e : exn).
Global Arguments Ok {A} a.
Global Arguments Raise {A} e.

Global Instance result_ret : MRet result := fun _ a => Ok a.
Global Instance result_bind : MBind result := fun _ _ f m =>
  match m with
  | Ok a => f a
  | Raise e => Raise e
  end.

(** [str.isspace] on one character (code points below 256). *)
Definition isspace (c : ascii) : bool :=
  let n := N_of_ascii c in
  ((9 <=? n) && (n <=? 13) || (28 <=? n) && (n <=? 32)
   || (n =? 133) || (n =? 160))%N.

(** [s.split()]: maximal runs of non-whitespace characters. [tok] is the
    token being read. *)
Fixpoint split_go (tok : string) (s : string) : list string :=
  match s with
  | EmptyString => if decide (tok = "") then [] else [tok]
  | String c s' =>
      if isspace c
      then (if decide (tok = "") then [] else [tok]) ++ split_go "" s'
      else split_go (tok +:+ String c "") s'
  end.
Definition split (s : string) : list string := split_go "" s.

(** [s.split(sep)] for a one-character separator. *)
Fixpoint split_sep_go (sep : ascii) (tok : string) (s : string) : list string :=
  match s with
  | EmptyString => [tok]
  | String c s' =>
      if decide (c = sep)
      then tok :: split_sep_go sep "" s'
      else split_sep_go sep (tok +:+ String c "") s'
  end.
Definition split_sep (sep : ascii) (s : string) : list string :=
  split_sep_go sep "" s.

(** [sep.join(l)]. *)
Fixpoint join (sep : string) (l : list string) : string :=
  match l with
  | [] => ""
  | [x] => x
  | x :: xs => x +:+ sep +:+ join sep xs
  end.

(** [s.lstrip(c)] for a one-character set. *)
Fixpoint lstrip (c : ascii) (s : string) : string :=
  match s with
  | String a s' => if decide (a = c) then lstrip c s' else s
  | EmptyString => ""
  end.

(** [s.startswith(c)] and [s.endswith(c)] for one character. *)
Definition startswith (c : ascii) (s : string) : bool :=
  match s with
  | String a _ => bool_decide (a = c)
  | EmptyString => false
  end.

Fixpoint endswith (c : ascii) (s : string) : bool :=
  match s with
  | EmptyString => false
  | String a EmptyString => bool_decide (a = c)
  | String _ s' => endswith c s'
  end.

(** [sub in s] on strings. *)
Fixpoint contains (sub s : string) : bool :=
  String.prefix sub s ||
  match s with
  | EmptyString => false
  | String _ s' => contains sub s'
  end.

(** [os.path.join(a, b)] of [posixpath]. *)
Definition path_join (a b : string) : string :=
  if startswith "/" b then b
  else if bool_decide (a = "") || endswith "/" a then a +:+ b
  else a +:+ "/" +:+ b.

(** [l[i]] and [l[i] = v] for a non-negative index. *)
Definition getitem {A} (l : list A) (i : nat) : result A :=
  match l !! i with
  | Some x => Ok x
  | None => Raise IndexError
  end.

Definition setitem {A} (l : list A) (i : nat) (v : A) : result (list A) :=
  if decide (i < length l) then Ok (<[i:=v]> l) else Raise IndexError.

(** [for i in range(n): s = body(i, s)], where [range(n)] is empty for
    [n <= 0]. *)
Fixpoint for_from {St} (i : nat) (count : nat) (body : nat → St → result St)
    (s : St) : result St :=
  match count with
  | 0 => Ok s
  | S count' => s' ← body i s; for_from (S i) count' body s'
  end.
Definition for_range {St} (n : Z) (body : nat → St → result St) (s : St)
    : result St :=
  for_from 0 (Z.to_nat n) body s.

End Py.
Import Py.

(** ** Configuration, compute managers and the handler monad *)

(** [app.config]: a dictionary; [app.config.get(k)] is [cfg !! k]. *)
Abbreviation config := (gmap string string).

(** The manager objects that [get_compute_mgr] constructs. *)
Inductive manager : Type :=
| SwarmManager (app_config : config)
| KubernetesManager (app_config : config)
| OpenShiftManager.

Definition get_compute_mgr (app_config : config) (container_env : option string)
    : option manager :=
  let compute_mgr := None in
  if decide (container_env = Some "swarm") then
    Some (SwarmManager app_config)
  else if decide (container_env = Some "kubernetes") then
    Some (KubernetesManager app_config)
  else if decide (container_env = Some "openshift") then
    Some OpenShiftManager
  else compute_mgr.

(** The methods of a compute manager that the handlers call.  [World] is the
    state of the cluster, [Job] the manager's job object.  A method may raise:
    a [ManagerException] is raised as [ManagerError e]. *)
Class AbstractManager (World Job : Type) : Type := {
  schedule_job : manager → string → string → string → gmap string string →
                 option string → World → result Job * World;
  get_job : manager → string → World → result Job * World;
  get_job_info : manager → Job → World → result (gmap string string) * World;
  get_job_logs : manager → Job → World → result string * World;
  remove_job : manager → Job → World → result unit * World
}.

(** A call made to the compute manager, as recorded in the trace. *)
Inductive call (Job : Type) : Type :=
| schedule_job_call (image command name : string)
    (resources_dict : gmap string string) (share_dir : option string)
| get_job_call (name : string)
| get_job_info_call (job : Job)
| get_job_logs_call (job : Job)
| remove_job_call (job : Job).
Arguments schedule_job_call {Job}.
Arguments get_job_call {Job}.
Arguments get_job_info_call {Job}.
Arguments get_job_logs_call {Job}.
Arguments remove_job_call {Job}.

Record state (World Job : Type) : Type := mk_state {
  world : World;
  trace : list (call Job)
}.
Arguments mk_state {World Job}.
Arguments world {World Job}.
Arguments trace {World Job}.

(** A handler: a computation over the cluster and the trace that returns or
    raises. *)
Definition handler (World Job A : Type) : Type :=
  state World Job → result A * state World Job.

(** The status codes for which the HTTP layer has an error class: the keys
    of [werkzeug.exceptions.default_exceptions], the table in which
    [flask.abort] looks a code up.  The table belongs to the installed
    library, not to [resources.py]; it is a parameter. *)
Class HTTPErrors : Type := mk_HTTPErrors { default_exceptions : list Z }.

Section Handler.
Context {World Job : Type} {E : HTTPErrors}.
Abbreviation H := (handler World Job).

Definition hret {A} (a : A) : H A := fun s => (Ok a, s).

Definition hraise {A} (e : exn) : H A := fun s => (Raise e, s).

Definition hbind {A B} (m : H A) (f : A → H B) : H B := fun s =>
  match m s with
  | (Ok a, s') => f a s'
  | (Raise e, s') => (Raise e, s')
  end.

(** A pure computation that may raise. *)
Definition lift {A} (r : result A) : H A := fun s => (r, s).

(** [obj.method(...)] on a manager object that may be [None]: the call is
    recorded and run on the cluster; on [None] it raises
    [AttributeError]. *)
Definition invoke {A} (obj : option manager) (c : call Job)
    (method : manager → World → result A * World) : H A := fun s =>
  match obj with
  | None => (Raise AttributeError, s)
  | Some mgr =>
      let '(r, w) := method mgr (world s) in
      (r, mk_state w (trace s ++ [c]))
  end.

(** [try: m  except ManagerException as e: h(e)]. *)
Definition try_except_ManagerException {A} (m : H A)
    (h : ManagerException → H A) : H A := fun s =>
  match m s with
  | (Raise (ManagerError e), s') => h e s'
  | r => r
  end.

(** The exception that [flask_restful.abort(http_status_code, message=...)]
    raises: the HTTP error that carries the status code and the message when
    the table has a class for the code, and the [LookupError] of the failed
    lookup when it has none. *)
Definition abort_exception (http_status_code : Z) (message : string) : exn :=
  if bool_decide (http_status_code ∈ default_exceptions)
  then HTTPException http_status_code message
  else LookupError.

Definition abort {A} (http_status_code : Z) (message : string) : H A :=
  hraise (abort_exception http_status_code message).

(** [d[k]] on a dictionary. *)
Definition getkey (d : gmap string string) (k : string) : H string :=
  match d !! k with
  | Some v => hret v
  | None => hraise KeyError
  end.
End Handler.

Global Instance handler_ret {World Job} : MRet (handler World Job) :=
  @hret World Job.
Global Instance handler_bind {World Job} : MBind (handler World Job) :=
  fun _ _ f m => hbind m f.

(** The JSON object of a job: the dictionary returned by [post] and [get]. *)
Record job_record : Type := mk_job_record {
  jr_jid : string;
  jr_image : string;
  jr_cmd : string;
  jr_status : string;
  jr_message : string;
  jr_timestamp : string;
  jr_logs : string
}.

(** The arguments that [parser.parse_args()] returns. *)
Record request_args : Type := mk_args {
  jid : string;
  cmd_args : string;
  cmd_path_flags : string;
  auid : string;
  number_of_workers : string;
  cpu_limit : string;
  memory_limit : string;
  gpu_limit : string;
  image : string;
  selfexec : string;
  selfpath : string;
  execshell : string;
  type_ : string
}.

(** ** [JobListResource]: the command builder and job submission *)
Module JobListResource.

(** The attributes that [__init__] sets and [build_app_cmd] reads. *)
Record t : Type := mk {
  str_app_container_inputdir : string;
  str_app_container_outputdir : string;
  container_env : option string;
  openshiftmgr : option manager
}.

Definition init (app_config : config) : t :=
  {| str_app_container_inputdir := "/share/incoming";
     str_app_container_outputdir := "/share/outgoing";
     container_env := app_config !! "CONTAINER_ENV";
     openshiftmgr := None |}.

Definition get (app_config : config) (self : t) : option string :=
  app_config !! "SERVER_VERSION".

(** One turn of the loop of [build_app_cmd]. *)
Definition subst_step (self : t) (path_flags : list string) (i : nat)
    (args : list string) : result (list string) :=
  a ← getitem args i;
  if bool_decide (a ∈ path_flags)
  then setitem args (i + 1) (str_app_container_inputdir self)
  else Ok args.

(** The loop of [build_app_cmd] over the token list [args]. *)
Definition subst_tokens (self : t) (path_flags args : list string)
    : result (list string) :=
  for_range (Z.of_nat (length args) - 1) (subst_step self path_flags) args.

(** The argument string after the [if cmd_path_flags:] block. *)
Definition rewrite_args (self : t) (cmd_args cmd_path_flags : string)
    : result string :=
  if decide (cmd_path_flags = "") then Ok cmd_args
  else
    let path_flags := split_sep "," cmd_path_flags in
    let args := split cmd_args in
    args ← subst_tokens self path_flags args;
    Ok (join " " args).

Definition build_app_cmd (self : t)
    (cmd_args cmd_path_flags selfpath selfexec execshell plugin_type : string)
    : result string :=
  cmd_args ← rewrite_args self cmd_args cmd_path_flags;
  let outputdir := str_app_container_outputdir self in
  let exec := path_join selfpath selfexec in
  let cmd := execshell +:+ " " +:+ exec in
  if decide (plugin_type = "ds") then
    let inputdir := str_app_container_inputdir self in
    Ok (cmd +:+ " " +:+ cmd_args +:+ " " +:+ inputdir +:+ " " +:+ outputdir)
  else if bool_decide (plugin_type ∈ ["fs"; "ts"]) then
    Ok (cmd +:+ " " +:+ cmd_args +:+ " " +:+ outputdir)
  else Ok cmd.

(** The [share_dir] that [post] computes from the configuration. *)
Definition share_dir_of (app_config : config) (job_id : string)
    : result (option string) :=
  let share_dir := None in
  let storage_type := app_config !! "STORAGE_TYPE" in
  if bool_decide (storage_type ∈ [Some "host"; Some "nfs"]) then
    match app_config !! "STOREBASE" with
    | Some storebase => Ok (Some (path_join storebase ("key-" +:+ job_id)))
    | None => Raise TypeError
    end
  else Ok share_dir.

(** The [resources_dict] that [post] builds from the request. *)
Definition resources_dict_of (args : request_args) : gmap string string :=
  <["number_of_workers" := number_of_workers args]>
  (<["cpu_limit" := cpu_limit args]>
  (<["memory_limit" := memory_limit args]>
  (<["gpu_limit" := gpu_limit args]> ∅))).

Section Post.
Context {World Job : Type} `{!AbstractManager World Job} {E : HTTPErrors}.

Definition post (app_config : config) (self : t) (args : request_args)
    : handler World Job (job_record * Z) :=
  let job_id := lstrip "/" (jid args) in
  cmd ← lift (build_app_cmd self (cmd_args args) (cmd_path_flags args)
                (selfpath args) (selfexec args) (execshell args)
                (type_ args));
  let resources_dict := resources_dict_of args in
  share_dir ← lift (share_dir_of app_config job_id);
  let compute_mgr := get_compute_mgr app_config (container_env self) in
  job ← try_except_ManagerException
          (invoke compute_mgr
             (schedule_job_call (image args) cmd job_id resources_dict
                                share_dir)
             (fun mgr => schedule_job mgr (image args) cmd job_id
                           resources_dict share_dir))
          (fun e => abort (status_code e) (str e));
  job_info ← invoke compute_mgr (get_job_info_call job)
               (fun mgr => get_job_info mgr job);
  job_logs ← invoke compute_mgr (get_job_logs_call job)
               (fun mgr => get_job_logs mgr job);
  r_image ← getkey job_info "image";
  r_cmd ← getkey job_info "cmd";
  r_status ← getkey job_info "status";
  r_message ← getkey job_info "message";
  r_timestamp ← getkey job_info "timestamp";
  hret (mk_job_record job_id r_image r_cmd r_status r_message r_timestamp
          job_logs, 201%Z).
End Post.

End JobListResource.

(** ** [JobResource]: one scheduled job *)
Module JobResource.

Record t : Type := mk {
  container_env : option string;
  compute_mgr : option manager
}.

Definition init (app_config : config) : t :=
  let container_env := app_config !! "CONTAINER_ENV" in
  {| container_env := container_env;
     compute_mgr := get_compute_mgr app_config container_env |}.

Section Handlers.
Context {World Job : Type} `{!AbstractManager World Job} {E : HTTPErrors}.

Definition get (self : t) (job_id : string)
    : handler World Job job_record :=
  let job_id := lstrip "/" job_id in
  job ← try_except_ManagerException
          (invoke (compute_mgr self) (get_job_call job_id)
             (fun mgr => get_job mgr job_id))
          (fun e => abort (status_code e) (str e));
  job_info ← invoke (compute_mgr self) (get_job_info_call job)
               (fun mgr => get_job_info mgr job);
  job_logs ← invoke (compute_mgr self) (get_job_logs_call job)
               (fun mgr => get_job_logs mgr job);
  r_image ← getkey job_info "image";
  r_cmd ← getkey job_info "cmd";
  r_status ← getkey job_info "status";
  r_message ← getkey job_info "message";
  r_timestamp ← getkey job_info "timestamp";
  hret (mk_job_record job_id r_image r_cmd r_status r_message r_timestamp
          job_logs).

Definition delete (self : t) (job_id : string)
    : handler World Job (string * Z) :=
  let job_id := lstrip "/" job_id in
  job ← try_except_ManagerException
          (invoke (compute_mgr self) (get_job_call job_id)
             (fun mgr => get_job mgr job_id))
          (fun e => abort (status_code e) (str e));
  _ ← invoke (compute_mgr self) (remove_job_call job)
    (fun mgr => remove_job mgr job);
  hret ("", 204%Z).
End Handlers.

End JobResource.

(** ** A manager that keeps its jobs in memory

    A small implementation of [AbstractManager], used to run the handlers on
    concrete requests. *)
Module MemoryManager.

Record job : Type := mk_job {
  job_name : string;
  job_image : string;
  job_command : string
}.

Definition world : Type := list job.

Definition find (name : string) (w : world) : option job :=
  list_find (fun j => job_name j = name) w ≫= fun p => Some p.2.

Definition schedule (mgr : manager) (image command name : string)
    (resources_dict : gmap string string) (share_dir : option string)
    (w : world) : result job * world :=
  match find name w with
  | Some _ => (Raise (ManagerError (mk_ManagerException "job already exists" 409)), w)
  | None => let j := mk_job name image command in (Ok j, w ++ [j])
  end.

Definition lookup_job (mgr : manager) (name : string) (w : world)
    : result job * world :=
  match find name w with
  | Some j => (Ok j, w)
  | None => (Raise (ManagerError (mk_ManagerException "job not found" 404)), w)
  end.

Definition info (mgr : manager) (j : job) (w : world)
    : result (gmap string string) * world :=
  (Ok (<["image" := job_image j]> (<["cmd" := job_command j]>
      (<["status" := "started"]> (<["message" := ""]>
      (<["timestamp" := "0"]> ∅))))), w).

Definition logs (mgr : manager) (j : job) (w : world)
    : result string * world := (Ok "", w).

Definition remove (mgr : manager) (j : job) (w : world)
    : result unit * world :=
  (Ok (), filter (fun j' => job_name j' ≠ job_name j) w).

Global Instance memory_manager : AbstractManager world job := {|
  schedule_job := schedule;
  get_job := lookup_job;
  get_job_info := info;
  get_job_logs := logs;
  remove_job := remove
|}.

Definition start : state world job := mk_state [] [].

End MemoryManager.

(** ** Definitions used to state the properties *)

(** [occurs sub s]: [sub] is a substring of [s]. *)
Definition occurs (sub s : string) : Prop := ∃ p q, s = p +:+ sub +:+ q.

Fixpoint mem_char (c : ascii) (s : string) : bool :=
  match s with
  | EmptyString => false
  | String a s' => bool_decide (a = c) || mem_char c s'
  end.

(** [scan inputdir path_flags hit args]: the tokens left by the loop of
    [build_app_cmd], read from left to right.  [hit] tells whether the token
    before the head of [args], as the loop left it, is a path flag. *)
Fixpoint scan (inputdir : string) (path_flags : list string) (hit : bool)
    (args : list string) : list string :=
  match args with
  | [] => []
  | a :: rest =>
      let a' := if hit then inputdir else a in
      a' :: scan inputdir path_flags (bool_decide (a' ∈ path_flags)) rest
  end.

(** [untouched path_flags args]: no token of [args] is a path flag. *)
Definition untouched (path_flags args : list string) : Prop :=
  Forall (fun a => a ∉ path_flags) args.

(** The job name that a call hands to the manager, when it has one. *)
Definition call_name {Job} (c : call Job) : option string :=
  match c with
  | schedule_job_call _ _ name _ _ => Some name
  | get_job_call name => Some name
  | _ => None
  end.

(** The substitution rule read on the tokens of the input: every input token
    that is a path flag and has a next token has that next token replaced. *)
Definition substitution_on_input_tokens (self : JobListResource.t)
    (cmd_args cmd_path_flags : string) : Prop :=
  cmd_path_flags ≠ "" →
  let path_flags := split_sep "," cmd_path_flags in
  let args := split cmd_args in
  ∃ r, JobListResource.subst_tokens self path_flags args = Ok r
    ∧ JobListResource.rewrite_args self cmd_args cmd_path_flags = Ok (join " " r)
    ∧ ∀ i a, args !! i = Some a → a ∈ path_flags → S i < length args →
        r !! S i = Some "/share/incoming".

(** Job-kind variance as worded: a command built for kind [fs] or [ts] does
    not contain the input directory. *)
Definition no_inputdir_in_command (self : JobListResource.t)
    (cmd_args cmd_path_flags selfpath selfexec execshell plugin_type : string)
    : Prop :=
  plugin_type = "fs" ∨ plugin_type = "ts" →
  ∃ cmd, JobListResource.build_app_cmd self cmd_args cmd_path_flags selfpath
           selfexec execshell plugin_type = Ok cmd
    ∧ contains "/share/incoming" cmd = false.

(** The trailing-flag case as worded: with a path flag as last token and no
    path flag before it, the argument string is left as it was. *)
Definition trailing_flag_keeps_string (self : JobListResource.t)
    (cmd_args cmd_path_flags : string) : Prop :=
  cmd_path_flags ≠ "" →
  let path_flags := split_sep "," cmd_path_flags in
  ∀ pre f, split cmd_args = pre ++ [f] → f ∈ path_flags →
    untouched path_flags pre →
    JobListResource.rewrite_args self cmd_args cmd_path_flags = Ok cmd_args.

(** Flag shadowing read on the tokens of the input: of two adjacent input
    tokens that are path flags, the second is overwritten and the token after
    it is kept. *)
Definition shadowing_on_input_tokens (self : JobListResource.t)
    (cmd_args cmd_path_flags : string) : Prop :=
  cmd_path_flags ≠ "" →
  let path_flags := split_sep "," cmd_path_flags in
  let args := split cmd_args in
  ∃ r, JobListResource.subst_tokens self path_flags args = Ok r
    ∧ ∀ i f g, args !! i = Some f → f ∈ path_flags →
        args !! S i = Some g → g ∈ path_flags →
        r !! S i = Some "/share/incoming" ∧ r !! S (S i) = args !! S (S i).

(** The known backend identifiers. *)
Definition known_backend (container_env : option string) : Prop :=
  container_env ∈ [Some "swarm"; Some "kubernetes"; Some "openshift"].

(** [trace_inv P m]: running [m] only adds calls to the trace, and every
    call it adds satisfies [P]. *)
Definition trace_inv {World Job A} (P : call Job → Prop)
    (m : handler World Job A) : Prop :=
  ∀ s, ∃ new, trace (m s).2 = trace s ++ new ∧ Forall P new.

(** A call names the job by the normalised form of [job_id]. *)
Definition names_normalised {Job} (job_id : string) (c : call Job) : Prop :=
  ∀ n, call_name c = Some n → n = lstrip "/" job_id ∧ startswith "/" n = false.

(** The request [args] with another job id. *)
Definition with_jid (j : string) (args : request_args) : request_args :=
  mk_args j (cmd_args args) (cmd_path_flags args) (auid args)
    (number_of_workers args) (cpu_limit args) (memory_limit args)
    (gpu_limit args) (image args) (selfexec args) (selfpath args)
    (execshell args) (type_ args).

(** A configuration and a request on which the handlers are run. *)
Definition example_config : config :=
  <["CONTAINER_ENV" := "swarm"]> (<["STORAGE_TYPE" := "host"]>
  (<["STOREBASE" := "/store"]> ∅)).

Definition example_args : request_args :=
  mk_args "/abc123" "--dir /local/a,/local/b --n 4" "--dir" "user" "1" "1000"
    "200" "0" "fnndsc/pl-simpledsapp" "simpledsapp.py" "/usr/src/simpledsapp"
    "python3" "ds".

(** A cluster that already runs the job [abc123]. *)
Definition busy : state MemoryManager.world MemoryManager.job :=
  mk_state [MemoryManager.mk_job "abc123" "fnndsc/pl-simpledsapp" "python3"] [].

(** [has_space s]: some character of [s] is whitespace. *)
Fixpoint has_space (s : string) : bool :=
  match s with
  | EmptyString => false
  | String c s' => isspace c || has_space s'
  end.

(** [token_like t]: [t] can be a token of [split]: it is not empty and has
    no whitespace. *)
Definition token_like (t : string) : Prop := t ≠ "" ∧ has_space t = false.

Global Instance token_like_dec (t : string) : Decision (token_like t).
Proof. unfold token_like. apply _. Defined.

(** [slashes n]: the string of [n] characters ['/']. *)
Fixpoint slashes (n : nat) : string :=
  match n with
  | 0 => ""
  | S n' => String "/" (slashes n')
  end.

(** The method of the manager that a call invokes. *)
Definition method_name {Job} (c : call Job) : string :=
  match c with
  | schedule_job_call _ _ _ _ _ => "schedule_job"
  | get_job_call _ => "get_job"
  | get_job_info_call _ => "get_job_info"
  | get_job_logs_call _ => "get_job_logs"
  | remove_job_call _ => "remove_job"
  end.

(** [only methods c]: the call [c] invokes one of [methods]. *)
Definition only {Job} (methods : list string) (c : call Job) : Prop :=
  method_name c ∈ methods.

(** A manager with scripted answers: each method returns what it is given,
    whatever the cluster and the job.  Its jobs are job names. *)
Definition scripted (on_schedule on_get : result string)
    (on_info : result (gmap string string)) (on_logs : result string)
    (on_remove : result unit) : AbstractManager unit string := {|
  schedule_job := λ _ _ _ _ _ _ w, (on_schedule, w);
  get_job := λ _ _ w, (on_get, w);
  get_job_info := λ _ _ w, (on_info, w);
  get_job_logs := λ _ _ w, (on_logs, w);
  remove_job := λ _ _ w, (on_remove, w)
|}.

(** The description of a job with its five entries. *)
Definition full_info : gmap string string :=
  <["image" := "img"]> (<["cmd" := "cmd"]> (<["status" := "started"]>
  (<["message" := ""]> (<["timestamp" := "0"]> ∅)))).

(** [calls_in_order methods m]: running [m] adds calls of [methods], in that
    order and each at most once; when [m] returns, it has made them all. *)
Definition calls_in_order {World Job A} (methods : list string)
    (m : handler World Job A) : Prop :=
  ∀ s, ∃ new,
    trace (m s).2 = trace s ++ new
    ∧ match (m s).1 with
      | Ok _ => method_name <$> new = methods
      | Raise _ => method_name <$> new `prefix_of` methods
      end.

(** The error classes of [werkzeug.exceptions] (release 2.0), the table on
    which the handlers are run in the examples. *)
Definition werkzeug_exceptions : HTTPErrors :=
  mk_HTTPErrors
    [400; 401; 403; 404; 405; 406; 408; 409; 410; 411; 412; 413; 414; 415;
     416; 417; 418; 422; 423; 424; 428; 429; 431; 451; 500; 501; 502; 503;
     504; 505]%Z.


(** ** Facts about strings *)

Section Strings.
Implicit Types s t u sub : string.

Lemma app_String c s t : String c s +:+ t = String c (s +:+ t).
Proof. done. Qed.

Lemma app_empty_r s : s +:+ "" = s.
Proof. induction s as [|c s IH]; [done|]. by rewrite app_String, IH. Qed.

Lemma app_assoc_s s t u : (s +:+ t) +:+ u = s +:+ t +:+ u.
Proof. induction s as [|c s IH]; [done|]. by rewrite !app_String, IH. Qed.

Lemma prefix_spec sub : ∀ s, String.prefix sub s = true ↔ ∃ q, s = sub +:+ q.
Proof.
  induction sub as [|c sub IH]; intros s.
  - split; [|by destruct s]. intros _. by exists s.
  - destruct s as [|d s]; cbn [String.prefix].
    + split; [done|]. by intros [q ?].
    + destruct (ascii_dec c d) as [->|Hne].
      * rewrite IH. split; intros [q Hq]; exists q.
        -- by rewrite app_String, <- Hq.
        -- rewrite app_String in Hq. by injection Hq.
      * split; [done|]. intros [q Hq]. rewrite app_String in Hq. congruence.
Qed.

Lemma contains_occurs sub : ∀ s, contains sub s = true ↔ occurs sub s.
Proof.
  induction s as [|c s IH]; cbn [contains].
  - rewrite orb_false_r, prefix_spec. split.
    + intros [q ->]. by exists "", q.
    + intros ([|] & q & Hq); [by exists q|done].
  - rewrite orb_true_iff, prefix_spec, IH. split.
    + intros [[q ->]|(p & q & ->)]; [by exists "", q|].
      by exists (String c p), q.
    + intros ([|d p] & q & Hq); [left; by exists q|right].
      rewrite app_String in Hq. injection Hq as _ ->. by exists p, q.
Qed.

(** Two ways of cutting one string overlap in a common middle part. *)
Lemma app_eq_app_s s : ∀ t s' t', s +:+ t = s' +:+ t' →
  (∃ m, s' = s +:+ m ∧ t = m +:+ t') ∨ (∃ m, s = s' +:+ m ∧ t' = m +:+ t).
Proof.
  induction s as [|c s IH]; intros t s' t' Heq.
  - left. by exists s'.
  - destruct s' as [|d s'].
    + right. by exists (String c s).
    + rewrite !app_String in Heq. injection Heq as -> Heq.
      destruct (IH _ _ _ Heq) as [(m & -> & ->)|(m & -> & ->)];
        [left|right]; by exists m.
Qed.

Lemma mem_char_app c s t : mem_char c (s +:+ t) = mem_char c s || mem_char c t.
Proof.
  induction s as [|d s IH]; [done|].
  rewrite app_String. cbn [mem_char]. by rewrite IH, orb_assoc.
Qed.

Lemma mem_char_head c s t : mem_char c (String c s +:+ t) = true.
Proof. rewrite app_String. cbn [mem_char]. by rewrite bool_decide_eq_true_2. Qed.

(** A substring without [c] of a string cut at an occurrence of [c] lies
    on one side of the cut. *)
Lemma occurs_sep c sub s t : mem_char c sub = false → sub ≠ "" →
  occurs sub (s +:+ String c t) ↔ occurs sub s ∨ occurs sub t.
Proof.
  intros Hc Hne. split.
  - intros (p & q & Heq).
    destruct (app_eq_app_s _ _ _ _ Heq) as [(m & -> & Hm)|(m & -> & Hm)].
    + destruct m as [|d m].
      * destruct sub as [|d sub]; [done|].
        rewrite !app_String in Hm. injection Hm as <- _.
        cbn [mem_char] in Hc. by rewrite bool_decide_eq_true_2 in Hc.
      * rewrite app_String in Hm. injection Hm as <- ->. right. by exists m, q.
    + destruct (app_eq_app_s _ _ _ _ Hm) as [(m' & -> & Hm')|(m' & -> & Hm')].
      * left. by exists p, m'.
      * destruct m' as [|d m'].
        -- left. exists p, "". by rewrite !app_empty_r.
        -- rewrite app_String in Hm'. injection Hm' as <- _.
           rewrite mem_char_app in Hc. cbn [mem_char] in Hc.
           rewrite bool_decide_eq_true_2 in Hc by done.
           by rewrite orb_true_r in Hc.
  - intros [(p & q & ->)|(p & q & ->)].
    + exists p, (q +:+ String c t). by rewrite !app_assoc_s.
    + exists (s +:+ String c p), q. by rewrite !app_assoc_s.
Qed.

Lemma contains_sep c sub s t : mem_char c sub = false → sub ≠ "" →
  contains sub (s +:+ String c t) = contains sub s || contains sub t.
Proof.
  intros Hc Hne. apply eq_true_iff_eq.
  by rewrite orb_true_iff, !contains_occurs, occurs_sep.
Qed.

Lemma lstrip_idemp c s : lstrip c (lstrip c s) = lstrip c s.
Proof.
  induction s as [|a s IH]; [done|]. cbn [lstrip].
  case_decide as Ha; [done|]. cbn [lstrip]. by rewrite decide_False.
Qed.

Lemma lstrip_startswith c s : startswith c (lstrip c s) = false.
Proof.
  induction s as [|a s IH]; [done|]. cbn [lstrip].
  case_decide as Ha; [done|]. cbn [startswith]. by rewrite bool_decide_eq_false_2.
Qed.
End Strings.

(** ** The token scan in closed form *)
Section Scan.
Variable inputdir : string.
Variable path_flags : list string.

Lemma scan_length hit args : length (scan inputdir path_flags hit args) = length args.
Proof. revert hit. induction args as [|a rest IH]; intros hit; cbn; [done|]. by rewrite IH. Qed.

Lemma scan_head args : scan inputdir path_flags false args !! 0 = args !! 0.
Proof. by destruct args. Qed.

(** The token after position [i] is the constant exactly when the token
    that the scan left at position [i] is a path flag. *)
Lemma scan_lookup_S args : ∀ hit i a,
  scan inputdir path_flags hit args !! i = Some a →
  scan inputdir path_flags hit args !! S i
  = (λ b, if bool_decide (a ∈ path_flags) then inputdir else b) <$> args !! S i.
Proof.
  induction args as [|b rest IH]; intros hit i a Hi; [done|].
  destruct i as [|i].
  - cbn in Hi. injection Hi as <-. by destruct rest.
  - cbn [scan] in *. rewrite !lookup_cons_ne_0 in * by done. cbn [pred] in *.
    by apply IH.
Qed.

Lemma scan_untouched args : untouched path_flags args →
  scan inputdir path_flags false args = args.
Proof.
  induction 1 as [|a rest Ha _ IH]; [done|].
  cbn [scan]. by rewrite bool_decide_eq_false_2, IH.
Qed.

(** A last token starts no rewrite: the tokens before it are scanned as if
    it were absent, and it is overwritten only when the token the scan left
    before it is a path flag. *)
Lemma scan_snoc args : ∀ hit a,
  scan inputdir path_flags hit (args ++ [a])
  = scan inputdir path_flags hit args
    ++ [if from_option (λ b, bool_decide (b ∈ path_flags)) hit
             (last (scan inputdir path_flags hit args))
        then inputdir else a].
Proof.
  induction args as [|b rest IH]; intros hit a; [done|].
  cbn [scan app]. rewrite IH, last_cons.
  by destruct (last (scan _ _ _ rest)).
Qed.
Lemma untouched_last args :
  untouched path_flags args →
  from_option (λ b, bool_decide (b ∈ path_flags)) false (last args) = false.
Proof.
  intros Hun. destruct (last args) as [b|] eqn:Hlast; [|done].
  apply last_Some in Hlast as [l' ->].
  unfold untouched in Hun. rewrite Forall_app, Forall_singleton in Hun.
  cbn. apply bool_decide_eq_false_2, Hun.
Qed.
End Scan.

Section Loop.
Variable self : JobListResource.t.
Variable path_flags : list string.

Let inputdir := JobListResource.str_app_container_inputdir self.
Let step := JobListResource.subst_step self path_flags.

(** One turn of the loop at a position that has a next token. *)
Lemma subst_step_middle (seen : list string) (a b : string) (rest : list string) :
  step (length seen) (seen ++ a :: b :: rest)
  = Ok (seen ++ a :: (if bool_decide (a ∈ path_flags) then inputdir else b) :: rest).
Proof.
  unfold step, JobListResource.subst_step, getitem.
  rewrite list_lookup_middle by done. cbn [mbind result_bind].
  case_bool_decide; [|done].
  unfold setitem. rewrite decide_True.
  2:{ rewrite length_app. cbn [length]. lia. }
  by rewrite insert_app_r.
Qed.

Lemma for_from_scan (rest : list string) : ∀ (seen : list string) (a : string),
  for_from (length seen) (length rest) step (seen ++ a :: rest)
  = Ok (seen ++ a :: scan inputdir path_flags (bool_decide (a ∈ path_flags)) rest).
Proof.
  induction rest as [|b rest IH]; intros seen a; [done|].
  cbn [length for_from]. rewrite subst_step_middle. cbn [mbind result_bind].
  specialize (IH (seen ++ [a])).
  rewrite length_app, Nat.add_1_r in IH. cbn [length] in IH.
  rewrite (cons_middle a seen), app_assoc, IH, <- app_assoc.
  cbn [scan app]. by destruct (bool_decide (a ∈ path_flags)).
Qed.

Lemma subst_tokens_scan (args : list string) :
  JobListResource.subst_tokens self path_flags args
  = Ok (scan inputdir path_flags false args).
Proof.
  unfold JobListResource.subst_tokens, for_range.
  destruct args as [|a rest]; [done|].
  replace (Z.to_nat (Z.of_nat (length (a :: rest)) - 1)) with (length rest)
    by (cbn [length]; lia).
  apply (for_from_scan rest [] a).
Qed.
End Loop.


(** ** The command builder: properties *)

Lemma rewrite_args_scan (self : JobListResource.t) (cmd_args cmd_path_flags : string) :
  JobListResource.rewrite_args self cmd_args cmd_path_flags
  = Ok (if decide (cmd_path_flags = "") then cmd_args
        else join " " (scan (JobListResource.str_app_container_inputdir self)
                         (split_sep "," cmd_path_flags) false (split cmd_args))).
Proof.
  unfold JobListResource.rewrite_args. case_decide; [done|].
  by rewrite subst_tokens_scan.
Qed.

(** The builder raises nothing: the loop never indexes out of range. *)
Lemma build_app_cmd_total (self : JobListResource.t)
    (cmd_args cmd_path_flags selfpath selfexec execshell plugin_type : string) :
  ∃ cmd, JobListResource.build_app_cmd self cmd_args cmd_path_flags selfpath
           selfexec execshell plugin_type = Ok cmd.
Proof.
  unfold JobListResource.build_app_cmd. rewrite rewrite_args_scan.
  cbn [mbind result_bind]. case_decide; [eauto|]. case_bool_decide; eauto.
Qed.

(** The command for job kind [ds]. *)
Lemma build_app_cmd_ds_shape (self : JobListResource.t)
    (cmd_args cmd_path_flags selfpath selfexec execshell : string) :
  ∃ rewritten,
    JobListResource.rewrite_args self cmd_args cmd_path_flags = Ok rewritten
    ∧ JobListResource.build_app_cmd self cmd_args cmd_path_flags selfpath
        selfexec execshell "ds"
      = Ok (execshell +:+ " " +:+ path_join selfpath selfexec +:+ " "
            +:+ rewritten +:+ " "
            +:+ JobListResource.str_app_container_inputdir self +:+ " "
            +:+ JobListResource.str_app_container_outputdir self).
Proof.
  eexists. split; [apply rewrite_args_scan|].
  unfold JobListResource.build_app_cmd. rewrite rewrite_args_scan.
  cbn [mbind result_bind]. rewrite decide_True by done.
  by rewrite !app_assoc_s.
Qed.

(** C5. For job kind [ds] the command is [execshell], the path join of
    [selfpath] and [selfexec], the (possibly rewritten) argument string, the
    input directory and the output directory, in that order, with one space
    between them; the builder always returns it. *)
Theorem build_app_cmd_ds (app_config : config)
    (cmd_args cmd_path_flags selfpath selfexec execshell : string) :
  ∃ rewritten,
    JobListResource.rewrite_args (JobListResource.init app_config) cmd_args
      cmd_path_flags = Ok rewritten
    ∧ JobListResource.build_app_cmd (JobListResource.init app_config) cmd_args
        cmd_path_flags selfpath selfexec execshell "ds"
      = Ok (execshell +:+ " " +:+ path_join selfpath selfexec +:+ " "
            +:+ rewritten +:+ " " +:+ "/share/incoming" +:+ " "
            +:+ "/share/outgoing").
Proof. apply build_app_cmd_ds_shape. Qed.

(** C6. With an empty [cmd_path_flags] the argument string goes into the
    command as it is: only the executable prefix comes before it and the
    directory constants of the job kind after it. *)
Theorem build_app_cmd_no_path_flags (app_config : config)
    (cmd_args selfpath selfexec execshell : string) :
  let self := JobListResource.init app_config in
  let prefix := execshell +:+ " " +:+ path_join selfpath selfexec in
  JobListResource.rewrite_args self cmd_args "" = Ok cmd_args
  ∧ JobListResource.build_app_cmd self cmd_args "" selfpath selfexec execshell "ds"
    = Ok (prefix +:+ " " +:+ cmd_args +:+ " /share/incoming /share/outgoing")
  ∧ JobListResource.build_app_cmd self cmd_args "" selfpath selfexec execshell "fs"
    = Ok (prefix +:+ " " +:+ cmd_args +:+ " /share/outgoing")
  ∧ JobListResource.build_app_cmd self cmd_args "" selfpath selfexec execshell "ts"
    = Ok (prefix +:+ " " +:+ cmd_args +:+ " /share/outgoing").
Proof.
  intros self prefix. split; [done|].
  unfold JobListResource.build_app_cmd, JobListResource.rewrite_args.
  rewrite decide_True by done. cbn [mbind result_bind].
  repeat split; subst prefix; cbn [decide]; by rewrite !app_assoc_s.
Qed.

(** The rule of C1 read on the input tokens fails when a path flag follows a
    path flag: in ["--dir --other x"] the token [x] follows the path flag
    [--other] and is kept. *)
Lemma substitution_on_input_tokens_fails :
  JobListResource.rewrite_args (JobListResource.init ∅) "--dir --other x"
    "--dir,--other" = Ok "--dir /share/incoming x"
  ∧ ¬ substitution_on_input_tokens (JobListResource.init ∅) "--dir --other x"
        "--dir,--other".
Proof.
  split; [by vm_compute|].
  intros Hrule. destruct Hrule as (r & Hr & _ & Hall); [done|].
  vm_compute in Hr. injection Hr as <-.
  specialize (Hall 1 "--other").
  assert (Hin : "--other" ∈ split_sep "," "--dir,--other").
  { apply (bool_decide_unpack _). by vm_compute. }
  assert (Hlt : 2 < length (split "--dir --other x")) by (vm_compute; lia).
  specialize (Hall eq_refl Hin Hlt). by vm_compute in Hall.
Qed.

(** C1, amended. With a non-empty [cmd_path_flags] the argument string is
    split on whitespace and scanned from left to right.  The first token is
    kept.  The token after position [i] becomes ["/share/incoming"] when the
    token that the scan finds at position [i] (the token of the result, which
    an earlier step may have overwritten) is a path flag, whatever the token
    was, and is kept otherwise.  In particular an input token that is a path
    flag and was not overwritten has its next token replaced.  The result is
    joined with single spaces. *)
Theorem substitution_at_scan_time (app_config : config)
    (cmd_args cmd_path_flags : string) :
  cmd_path_flags ≠ "" →
  let self := JobListResource.init app_config in
  let path_flags := split_sep "," cmd_path_flags in
  let args := split cmd_args in
  ∃ r, JobListResource.subst_tokens self path_flags args = Ok r
    ∧ JobListResource.rewrite_args self cmd_args cmd_path_flags = Ok (join " " r)
    ∧ length r = length args
    ∧ r !! 0 = args !! 0
    ∧ (∀ i a, r !! i = Some a →
         r !! S i = (λ b, if bool_decide (a ∈ path_flags)
                          then "/share/incoming" else b) <$> args !! S i)
    ∧ (∀ i a, args !! i = Some a → a ∈ path_flags → r !! i = Some a →
         S i < length args → r !! S i = Some "/share/incoming").
Proof.
  intros Hne self path_flags args.
  exists (scan "/share/incoming" path_flags false args).
  split; [apply subst_tokens_scan|].
  split; [by rewrite rewrite_args_scan, decide_False|].
  split; [apply scan_length|].
  split; [apply scan_head|].
  split; [apply scan_lookup_S|].
  intros i a Ha Hflag Hr Hlt.
  rewrite (scan_lookup_S _ _ _ _ _ _ Hr), bool_decide_eq_true_2 by done.
  destruct (lookup_lt_is_Some_2 args (S i) Hlt) as [b ->]. done.
Qed.

Lemma substitution_at_scan_time_witness :
  ∃ r, JobListResource.subst_tokens (JobListResource.init ∅)
         (split_sep "," "--dir") (split "--dir /local/a,/local/b --n 4") = Ok r
    ∧ r !! 1 = Some "/share/incoming".
Proof.
  destruct (substitution_at_scan_time ∅ "--dir /local/a,/local/b --n 4" "--dir")
    as (r & Hr & _ & _ & _ & _ & Hflag); [done|].
  exists r. split; [exact Hr|].
  apply (Hflag 0 "--dir"); [reflexivity| |  |vm_compute; lia].
  - apply (bool_decide_unpack _). by vm_compute.
  - vm_compute in Hr. injection Hr as <-. reflexivity.
Defined.

(** The substring test on a command cut at its spaces. *)
Lemma contains_inputdir_sep (s t : string) :
  contains "/share/incoming" (s +:+ " " +:+ t)
  = contains "/share/incoming" s || contains "/share/incoming" t.
Proof. by apply (contains_sep " "). Qed.

(** The claim of C3 for kinds [fs] and [ts] fails when a path flag is
    rewritten: the substitution is made for every job kind. *)
Lemma no_inputdir_in_command_fails :
  JobListResource.build_app_cmd (JobListResource.init ∅) "--dir /x" "--dir"
    "/usr/src/app" "app.py" "python3" "fs"
  = Ok "python3 /usr/src/app/app.py --dir /share/incoming /share/outgoing"
  ∧ ¬ no_inputdir_in_command (JobListResource.init ∅) "--dir /x" "--dir"
        "/usr/src/app" "app.py" "python3" "fs".
Proof.
  split; [by vm_compute|].
  intros Hno. destruct Hno as (cmd & Hcmd & Hnot); [by left|].
  vm_compute in Hcmd. injection Hcmd as <-. by vm_compute in Hnot.
Qed.

(** C3, amended. For job kinds [fs] and [ts] the builder appends the output
    directory only: the command is the executable prefix, the (possibly
    rewritten) argument string and ["/share/outgoing"], and it contains
    ["/share/incoming"] exactly when [execshell], the executable path or the
    rewritten argument string does (as after a path-flag substitution).  For
    job kind [ds] the command always contains both directory constants. *)
Theorem job_kind_variance (app_config : config)
    (cmd_args cmd_path_flags selfpath selfexec execshell : string) :
  let self := JobListResource.init app_config in
  let build := JobListResource.build_app_cmd self cmd_args cmd_path_flags
                 selfpath selfexec execshell in
  let exec := path_join selfpath selfexec in
  ∃ rewritten cmd_out cmd_ds,
    JobListResource.rewrite_args self cmd_args cmd_path_flags = Ok rewritten
    ∧ build "fs" = Ok cmd_out ∧ build "ts" = Ok cmd_out
    ∧ cmd_out = execshell +:+ " " +:+ exec +:+ " " +:+ rewritten
                +:+ " " +:+ "/share/outgoing"
    ∧ contains "/share/incoming" cmd_out
      = contains "/share/incoming" execshell || contains "/share/incoming" exec
        || contains "/share/incoming" rewritten
    ∧ build "ds" = Ok cmd_ds
    ∧ contains "/share/incoming" cmd_ds = true
    ∧ contains "/share/outgoing" cmd_ds = true.
Proof.
  intros self build exec.
  destruct (build_app_cmd_ds_shape self cmd_args cmd_path_flags selfpath
              selfexec execshell) as (rewritten & Hrw & Hds).
  exists rewritten. do 2 eexists.
  split; [exact Hrw|].
  assert (Hout : ∀ t, t = "fs" ∨ t = "ts" → build t
            = Ok (execshell +:+ " " +:+ exec +:+ " " +:+ rewritten +:+ " "
                  +:+ "/share/outgoing")).
  { intros t Ht. subst build self exec. unfold JobListResource.build_app_cmd.
    rewrite Hrw. cbn [mbind result_bind].
    destruct Ht as [-> | ->]; cbn [decide]; by rewrite !app_assoc_s. }
  split; [apply Hout; by left|]. split; [apply Hout; by right|].
  split; [done|].
  split.
  { rewrite !contains_inputdir_sep.
    replace (contains "/share/incoming" "/share/outgoing") with false by done.
    by rewrite orb_false_r, orb_assoc. }
  split; [exact Hds|]. split; apply contains_occurs.
  - exists (execshell +:+ " " +:+ exec +:+ " " +:+ rewritten +:+ " "),
           " /share/outgoing".
    by rewrite !app_assoc_s.
  - exists (execshell +:+ " " +:+ exec +:+ " " +:+ rewritten +:+ " "
            +:+ "/share/incoming" +:+ " "), "".
    by rewrite !app_assoc_s.
Qed.

(** The trailing-flag case of C4 as worded fails on whitespace: the tokens
    are joined again with single spaces, so ["x  --dir"] (two spaces) comes
    back as ["x --dir"]. *)
Lemma trailing_flag_keeps_string_fails :
  JobListResource.rewrite_args (JobListResource.init ∅) "x  --dir" "--dir"
  = Ok "x --dir"
  ∧ ¬ trailing_flag_keeps_string (JobListResource.init ∅) "x  --dir" "--dir".
Proof.
  split; [by vm_compute|].
  intros Hkeep. specialize (Hkeep ltac:(done) ["x"] "--dir" eq_refl).
  assert (Hin : "--dir" ∈ split_sep "," "--dir").
  { apply (bool_decide_unpack _). by vm_compute. }
  assert (Hpre : untouched (split_sep "," "--dir") ["x"]).
  { apply Forall_cons. split; [|apply Forall_nil_2].
    apply (bool_decide_unpack _). by vm_compute. }
  specialize (Hkeep Hin Hpre). by vm_compute in Hkeep.
Qed.

(** C4, amended. When a path flag is the last whitespace token of the
    argument string, the builder returns (no [IndexError]) and that
    occurrence starts no rewrite: the tokens before it are rewritten as if it
    were absent, and the last token is kept unless the token left before it
    is a path flag.  When no earlier token is a path flag the token sequence
    is left as it was; the argument string is those tokens joined with single
    spaces. *)
Theorem trailing_flag_starts_no_rewrite (app_config : config)
    (cmd_args cmd_path_flags selfpath selfexec execshell plugin_type : string)
    (pre : list string) (f : string) :
  cmd_path_flags ≠ "" →
  let self := JobListResource.init app_config in
  let path_flags := split_sep "," cmd_path_flags in
  split cmd_args = pre ++ [f] →
  f ∈ path_flags →
  ∃ r_pre l cmd,
    JobListResource.subst_tokens self path_flags pre = Ok r_pre
    ∧ JobListResource.subst_tokens self path_flags (split cmd_args)
      = Ok (r_pre ++ [l])
    ∧ l = (if from_option (λ b, bool_decide (b ∈ path_flags)) false (last r_pre)
           then "/share/incoming" else f)
    ∧ JobListResource.rewrite_args self cmd_args cmd_path_flags
      = Ok (join " " (r_pre ++ [l]))
    ∧ JobListResource.build_app_cmd self cmd_args cmd_path_flags selfpath
        selfexec execshell plugin_type = Ok cmd
    ∧ (untouched path_flags pre →
         r_pre ++ [l] = split cmd_args
         ∧ JobListResource.rewrite_args self cmd_args cmd_path_flags
           = Ok (join " " (split cmd_args))).
Proof.
  intros Hne self path_flags Hsplit Hf.
  destruct (build_app_cmd_total self cmd_args cmd_path_flags selfpath selfexec
              execshell plugin_type) as [cmd Hcmd].
  exists (scan "/share/incoming" path_flags false pre). eexists. exists cmd.
  split; [apply subst_tokens_scan|].
  split; [rewrite subst_tokens_scan, Hsplit; f_equal; apply scan_snoc|].
  split; [done|].
  assert (Hrw : JobListResource.rewrite_args self cmd_args cmd_path_flags
                = Ok (join " " (scan "/share/incoming" path_flags false
                                  (pre ++ [f])))).
  { by rewrite rewrite_args_scan, decide_False, Hsplit. }
  split; [by rewrite Hrw, scan_snoc|].
  split; [exact Hcmd|].
  intros Hpre. rewrite Hrw, Hsplit, scan_snoc.
  by rewrite (scan_untouched _ _ _ Hpre), untouched_last.
Qed.

Lemma trailing_flag_starts_no_rewrite_witness :
  ∃ cmd, JobListResource.build_app_cmd (JobListResource.init ∅)
           "--n 4 --dir" "--dir" "/usr/src/app" "app.py" "python3" "fs" = Ok cmd
    ∧ JobListResource.rewrite_args (JobListResource.init ∅) "--n 4 --dir" "--dir"
      = Ok (join " " (split "--n 4 --dir")).
Proof.
  assert (Hin : "--dir" ∈ split_sep "," "--dir").
  { apply (bool_decide_unpack _). by vm_compute. }
  destruct (trailing_flag_starts_no_rewrite ∅ "--n 4 --dir" "--dir"
              "/usr/src/app" "app.py" "python3" "fs" ["--n"; "4"] "--dir"
              ltac:(done) eq_refl Hin)
    as (r_pre & l & cmd & _ & _ & _ & _ & Hcmd & Hkeep).
  exists cmd. split; [exact Hcmd|]. apply Hkeep.
  repeat (apply Forall_cons; split;
          [apply (bool_decide_unpack _); by vm_compute|]).
  apply Forall_nil_2.
Defined.

(** Flag shadowing read on the input tokens fails for three path flags in a
    row: in ["--a --b --c x"] the flag [--b] is overwritten, so [--c], which
    follows the input flag [--b], is kept and rewrites [x]. *)
Lemma shadowing_on_input_tokens_fails :
  JobListResource.rewrite_args (JobListResource.init ∅) "--a --b --c x"
    "--a,--b,--c" = Ok "--a /share/incoming --c /share/incoming"
  ∧ ¬ shadowing_on_input_tokens (JobListResource.init ∅) "--a --b --c x"
        "--a,--b,--c".
Proof.
  split; [by vm_compute|].
  intros Hsh. destruct Hsh as (r & Hr & Hall); [done|].
  vm_compute in Hr. injection Hr as <-.
  assert (Hb : "--b" ∈ split_sep "," "--a,--b,--c").
  { apply (bool_decide_unpack _). by vm_compute. }
  assert (Hc : "--c" ∈ split_sep "," "--a,--b,--c").
  { apply (bool_decide_unpack _). by vm_compute. }
  destruct (Hall 1 "--b" "--c" eq_refl Hb eq_refl Hc) as [Hover _].
  by vm_compute in Hover.
Qed.

(** C10, amended. With a non-empty [cmd_path_flags], when the token that the
    scan finds at position [i] is a path flag (an input flag that no earlier
    step overwrote) and the next input token is a path flag too, that second
    flag is overwritten with ["/share/incoming"] before the scan reaches it
    and starts no substitution of its own: the token after it is kept, unless
    ["/share/incoming"] is itself one of the path flags.  For example
    ["--dir --other x"] with flags [--dir] and [--other] gives
    ["--dir /share/incoming x"]. *)
Theorem flag_shadowing :
  (∀ (app_config : config) (cmd_args cmd_path_flags : string),
     cmd_path_flags ≠ "" →
     let self := JobListResource.init app_config in
     let path_flags := split_sep "," cmd_path_flags in
     let args := split cmd_args in
     ∃ r, JobListResource.subst_tokens self path_flags args = Ok r
       ∧ ∀ i f g, r !! i = Some f → f ∈ path_flags →
           args !! S i = Some g → g ∈ path_flags →
           r !! S i = Some "/share/incoming"
           ∧ r !! S (S i)
             = (λ b, if bool_decide ("/share/incoming" ∈ path_flags)
                     then "/share/incoming" else b) <$> args !! S (S i))
  ∧ JobListResource.rewrite_args (JobListResource.init ∅) "--dir --other x"
      "--dir,--other" = Ok "--dir /share/incoming x".
Proof.
  split; [|by vm_compute].
  intros app_config cmd_args cmd_path_flags Hne self path_flags args.
  exists (scan "/share/incoming" path_flags false args).
  split; [apply subst_tokens_scan|].
  intros i f g Hi Hf Hg _.
  assert (Hnext : scan "/share/incoming" path_flags false args !! S i
                  = Some "/share/incoming").
  { by rewrite (scan_lookup_S _ _ _ _ _ _ Hi), Hg, bool_decide_eq_true_2. }
  split; [exact Hnext|]. apply (scan_lookup_S _ _ _ _ _ _ Hnext).
Qed.

Lemma flag_shadowing_witness :
  ∃ r, JobListResource.subst_tokens (JobListResource.init ∅)
         (split_sep "," "--dir,--other") (split "--dir --other x") = Ok r
    ∧ r !! 1 = Some "/share/incoming" ∧ r !! 2 = Some "x".
Proof.
  destruct (proj1 flag_shadowing ∅ "--dir --other x" "--dir,--other"
              ltac:(done)) as (r & Hr & Hsh).
  exists r. split; [exact Hr|].
  assert (Hd : "--dir" ∈ split_sep "," "--dir,--other").
  { apply (bool_decide_unpack _). by vm_compute. }
  assert (Ho : "--other" ∈ split_sep "," "--dir,--other").
  { apply (bool_decide_unpack _). by vm_compute. }
  assert (H0 : r !! 0 = Some "--dir").
  { vm_compute in Hr. by injection Hr as <-. }
  destruct (Hsh 0 "--dir" "--other" H0 Hd eq_refl Ho) as [H1 H2].
  split; [exact H1|]. rewrite H2. by vm_compute.
Defined.

(** ** The handlers: properties *)

Section TraceInv.
Context {World Job : Type}.
Implicit Types P : call Job → Prop.

Lemma trace_inv_ret {A} P (a : A) : trace_inv P (mret a : handler World Job A).
Proof. intros s. exists []. by rewrite app_nil_r. Qed.

Lemma trace_inv_raise {A} P e : trace_inv P (hraise e : handler World Job A).
Proof. intros s. exists []. by rewrite app_nil_r. Qed.

Lemma trace_inv_lift {A} P (r : result A) : trace_inv P (lift r : handler World Job A).
Proof. intros s. exists []. by rewrite app_nil_r. Qed.

Lemma trace_inv_getkey P d k : trace_inv P (getkey d k : handler World Job string).
Proof. unfold getkey. destruct (d !! k); [apply trace_inv_ret|apply trace_inv_raise]. Qed.

Lemma trace_inv_bind {A B} P (m : handler World Job A) (f : A → handler World Job B) :
  trace_inv P m → (∀ a, trace_inv P (f a)) → trace_inv P (m ≫= f).
Proof.
  intros Hm Hf s. unfold mbind, handler_bind, hbind.
  destruct (Hm s) as (new1 & Hnew1 & HP1).
  destruct (m s) as [[a|e] s1]; cbn [snd] in *.
  - destruct (Hf a s1) as (new2 & Hnew2 & HP2).
    exists (new1 ++ new2). rewrite Hnew2, Hnew1, app_assoc.
    split; [done|]. by apply Forall_app.
  - by exists new1.
Qed.

Lemma trace_inv_invoke {A} P obj c
    (method : manager → World → result A * World) :
  P c → trace_inv P (invoke obj c method : handler World Job A).
Proof.
  intros Hc s. unfold invoke. destruct obj as [mgr|].
  - destruct (method mgr (world s)) as [r w]. exists [c].
    split; [done|]. by apply Forall_singleton.
  - exists []. by rewrite app_nil_r.
Qed.

Lemma trace_inv_try {A} P (m : handler World Job A) h :
  trace_inv P m → (∀ e, trace_inv P (h e)) →
  trace_inv P (try_except_ManagerException m h).
Proof.
  intros Hm Hh s. unfold try_except_ManagerException.
  destruct (Hm s) as (new1 & Hnew1 & HP1).
  destruct (m s) as [[a|e] s1]; cbn [snd] in *; [by exists new1|].
  destruct e as [| | | |e| |]; try by exists new1.
  destruct (Hh e s1) as (new2 & Hnew2 & HP2).
  exists (new1 ++ new2). rewrite Hnew2, Hnew1, app_assoc.
  split; [done|]. by apply Forall_app.
Qed.
End TraceInv.

Lemma get_compute_mgr_None (app_config : config) (container_env : option string) :
  ¬ known_backend container_env → get_compute_mgr app_config container_env = None.
Proof.
  intros Hunknown. unfold get_compute_mgr.
  repeat case_decide; try done; exfalso; apply Hunknown; subst;
    unfold known_backend; set_solver.
Qed.

(** C2 (the code departs from the claim). For a backend identifier outside
    the known set, [get_compute_mgr] returns [None] and reports nothing; the
    handlers then call a method on [None]: [get] and [delete] stop with an
    [AttributeError], and so does [post] (unless the share directory already
    failed with a [TypeError]).  No call reaches a manager.  The claim asks
    for an explicit failure in place of the [None]. *)
Theorem unknown_backend_gives_None {World Job : Type}
    `{!AbstractManager World Job} {E : HTTPErrors} (app_config : config) (args : request_args)
    (job_id : string) (s : state World Job) :
  ¬ known_backend (app_config !! "CONTAINER_ENV") →
  get_compute_mgr app_config (app_config !! "CONTAINER_ENV") = None
  ∧ JobResource.get (JobResource.init app_config) job_id s
    = (Raise AttributeError, s)
  ∧ JobResource.delete (JobResource.init app_config) job_id s
    = (Raise AttributeError, s)
  ∧ ∃ e, JobListResource.post app_config (JobListResource.init app_config) args s
         = (Raise e, s)
      ∧ (e = AttributeError ∨ e = TypeError).
Proof.
  intros Hunknown. pose proof (get_compute_mgr_None app_config _ Hunknown) as Hnone.
  split; [exact Hnone|].
  split; [|split].
  - unfold JobResource.get, JobResource.init. cbn [JobResource.compute_mgr].
    by rewrite Hnone.
  - unfold JobResource.delete, JobResource.init. cbn [JobResource.compute_mgr].
    by rewrite Hnone.
  - unfold JobListResource.post.
    destruct (build_app_cmd_total (JobListResource.init app_config)
                (cmd_args args) (cmd_path_flags args) (selfpath args)
                (selfexec args) (execshell args) (type_ args)) as [cmd ->].
    cbn [JobListResource.init JobListResource.container_env]. rewrite Hnone.
    destruct (JobListResource.share_dir_of app_config (lstrip "/" (jid args)))
      as [share_dir|e] eqn:Hshare.
    + exists AttributeError. split; [reflexivity|by left].
    + exists e. split; [reflexivity|]. right.
      unfold JobListResource.share_dir_of in Hshare.
      case_bool_decide; [|done].
      destruct (app_config !! "STOREBASE"); by simplify_eq.
Qed.

Lemma unknown_backend_gives_None_witness :
  get_compute_mgr {["CONTAINER_ENV" := "docker"]} (Some "docker") = None
  ∧ JobResource.get (E := werkzeug_exceptions)
      (JobResource.init {["CONTAINER_ENV" := "docker"]}) "abc123"
      MemoryManager.start
    = (Raise AttributeError, MemoryManager.start).
Proof.
  assert (Hunknown : ¬ known_backend
            (({["CONTAINER_ENV" := "docker"]} : config) !! "CONTAINER_ENV")).
  { unfold known_backend. apply (bool_decide_unpack _). by vm_compute. }
  destruct (unknown_backend_gives_None (E := werkzeug_exceptions)
              {["CONTAINER_ENV" := "docker"]}
              (mk_args "abc123" "" "" "" "" "" "" "" "" "" "" "" "ds")
              "abc123" MemoryManager.start Hunknown) as (Hnone & Hget & _).
  split; [exact Hnone|exact Hget].
Defined.

Section Coordinator.
Context {World Job : Type} `{!AbstractManager World Job} {E : HTTPErrors}.
Implicit Types s : state World Job.

Lemma bind_lift_Ok {A B} (a : A) (f : A → handler World Job B) s :
  (lift (Ok a) ≫= f) s = f a s.
Proof. done. Qed.

Lemma bind_unfold {A B} (m : handler World Job A) (f : A → handler World Job B) s :
  (m ≫= f) s = match m s with
               | (Ok a, s') => f a s'
               | (Raise e, s') => (Raise e, s')
               end.
Proof. done. Qed.

(** A guarded call on a manager that is there: the call is recorded, and a
    [ManagerException] becomes the exception of [abort]. *)
Lemma try_invoke_Some {A} (mgr : manager) (c : call Job)
    (method : manager → World → result A * World) s :
  try_except_ManagerException (invoke (Some mgr) c method)
    (λ e, abort (status_code e) (str e)) s
  = (match (method mgr (world s)).1 with
     | Raise (ManagerError e) =>
         Raise (abort_exception (status_code e) (str e))
     | r => r
     end,
     mk_state (method mgr (world s)).2 (trace s ++ [c])).
Proof.
  unfold try_except_ManagerException, invoke.
  destruct (method mgr (world s)) as [[a|e] w]; [done|]. by destruct e.
Qed.

(** The part of [post] after the [schedule_job] call only adds calls. *)
Lemma bind_first_call {A B} (m : handler World Job A)
    (k : A → handler World Job B) (c : call Job) s :
  trace (m s).2 = trace s ++ [c] →
  (∀ a, trace_inv (λ _, True) (k a)) →
  ∃ rest, trace ((m ≫= k) s).2 = trace s ++ c :: rest.
Proof.
  intros Hm Hk. rewrite bind_unfold.
  destruct (m s) as [[a|e] s1]; cbn [snd] in Hm.
  - destruct (Hk a s1) as (new & Hnew & _). exists new.
    by rewrite Hnew, Hm, <- app_assoc.
  - by exists [].
Qed.

Lemma post_first_call (app_config : config) (args : request_args) s
    (mgr : manager) (cmd : string) (share_dir : option string) :
  let self := JobListResource.init app_config in
  let job_id := lstrip "/" (jid args) in
  get_compute_mgr app_config (app_config !! "CONTAINER_ENV") = Some mgr →
  JobListResource.build_app_cmd self (cmd_args args) (cmd_path_flags args)
    (selfpath args) (selfexec args) (execshell args) (type_ args) = Ok cmd →
  JobListResource.share_dir_of app_config job_id = Ok share_dir →
  ∃ rest,
    trace (JobListResource.post app_config self args s).2
    = trace s ++ schedule_job_call (image args) cmd job_id
                   (JobListResource.resources_dict_of args) share_dir :: rest.
Proof.
  intros self job_id Hmgr Hcmd Hshare. subst self job_id.
  unfold JobListResource.post. rewrite Hcmd, Hshare.
  cbn [JobListResource.init JobListResource.container_env]. rewrite Hmgr.
  rewrite !bind_lift_Ok. apply bind_first_call.
  - by rewrite try_invoke_Some.
  - intros job.
    repeat first [ apply trace_inv_bind; [|intros ?]
                 | by apply trace_inv_invoke
                 | apply trace_inv_getkey
                 | apply trace_inv_ret ].
Qed.

End Coordinator.

Lemma names_normalised_named {Job} (job_id : string) (c : call Job) :
  call_name c = Some (lstrip "/" job_id) ∨ call_name c = None →
  names_normalised job_id c.
Proof.
  intros [Hc|Hc] n Hn; rewrite Hc in Hn; [|done].
  injection Hn as <-. split; [done|apply lstrip_startswith].
Qed.

Ltac trace_inv_steps :=
  repeat first [ apply trace_inv_bind; [|intros ?]
               | apply trace_inv_try; [|intros ?]
               | apply trace_inv_invoke;
                 apply names_normalised_named; cbn [call_name]; by eauto
               | apply trace_inv_getkey
               | apply trace_inv_lift
               | apply trace_inv_raise
               | apply trace_inv_ret ].

(** C7. In [post], [get] and [delete] the job id is stripped of its leading
    ['/'] characters first: every call that names the job to the manager
    carries the stripped id, which never begins with ['/'], and each handler
    depends on the id only through its stripped form.  The ids ["/abc123"]
    and ["abc123"] give the same identifier. *)
Theorem job_id_normalised {World Job : Type} `{!AbstractManager World Job} {E : HTTPErrors}
    (app_config : config) (args : request_args) (job_id : string)
    (s : state World Job) :
  trace_inv (names_normalised (jid args))
    (JobListResource.post app_config (JobListResource.init app_config) args)
  ∧ trace_inv (names_normalised job_id)
      (JobResource.get (JobResource.init app_config) job_id)
  ∧ trace_inv (names_normalised job_id)
      (JobResource.delete (JobResource.init app_config) job_id)
  ∧ startswith "/" (lstrip "/" job_id) = false
  ∧ JobListResource.post app_config (JobListResource.init app_config) args s
    = JobListResource.post app_config (JobListResource.init app_config)
        (with_jid (lstrip "/" (jid args)) args) s
  ∧ JobResource.get (JobResource.init app_config) job_id s
    = JobResource.get (JobResource.init app_config) (lstrip "/" job_id) s
  ∧ JobResource.delete (JobResource.init app_config) job_id s
    = JobResource.delete (JobResource.init app_config) (lstrip "/" job_id) s
  ∧ lstrip "/" "/abc123" = "abc123"
  ∧ lstrip "/" "abc123" = "abc123".
Proof.
  split; [unfold JobListResource.post; trace_inv_steps|].
  split; [unfold JobResource.get; trace_inv_steps|].
  split; [unfold JobResource.delete; trace_inv_steps|].
  split; [apply lstrip_startswith|].
  split.
  { unfold JobListResource.post, with_jid.
    cbn [jid cmd_args cmd_path_flags selfpath selfexec execshell type_ image].
    by rewrite lstrip_idemp. }
  split; [unfold JobResource.get; by rewrite lstrip_idemp|].
  split; [unfold JobResource.delete; by rewrite lstrip_idemp|].
  done.
Qed.

(** C8. On [post] with a manager for the configured backend, the share
    directory handed to [schedule_job] is the join of [STOREBASE] with
    ["key-"] followed by the stripped job id when the storage type is [host]
    or [nfs], and [None] for every other storage type. *)
Theorem share_dir_rule {World Job : Type} `{!AbstractManager World Job} {E : HTTPErrors}
    (app_config : config) (args : request_args) (s : state World Job)
    (mgr : manager) (storebase : string) :
  let self := JobListResource.init app_config in
  let job_id := lstrip "/" (jid args) in
  let storage_type := app_config !! "STORAGE_TYPE" in
  let share_dir :=
    if bool_decide (storage_type = Some "host" ∨ storage_type = Some "nfs")
    then Some (path_join storebase ("key-" +:+ job_id))
    else None in
  get_compute_mgr app_config (app_config !! "CONTAINER_ENV") = Some mgr →
  (storage_type = Some "host" ∨ storage_type = Some "nfs" →
   app_config !! "STOREBASE" = Some storebase) →
  JobListResource.share_dir_of app_config job_id = Ok share_dir
  ∧ ∃ cmd rest,
      trace (JobListResource.post app_config self args s).2
      = trace s ++ schedule_job_call (image args) cmd job_id
                     (JobListResource.resources_dict_of args) share_dir :: rest.
Proof.
  intros self job_id storage_type share_dir Hmgr Hbase.
  assert (Hshare : JobListResource.share_dir_of app_config job_id = Ok share_dir).
  { unfold JobListResource.share_dir_of. fold storage_type. subst share_dir.
    rewrite (bool_decide_ext (storage_type ∈ [Some "host"; Some "nfs"])
               (storage_type = Some "host" ∨ storage_type = Some "nfs"))
      by (rewrite !elem_of_cons, elem_of_nil; tauto).
    case_bool_decide as Hmode; [|done]. by rewrite (Hbase Hmode). }
  split; [exact Hshare|].
  destruct (build_app_cmd_total self (cmd_args args) (cmd_path_flags args)
              (selfpath args) (selfexec args) (execshell args) (type_ args))
    as [cmd Hcmd].
  exists cmd. by apply (post_first_call app_config args s mgr).
Qed.

Lemma share_dir_rule_witness :
  JobListResource.share_dir_of example_config "abc123"
  = Ok (Some "/store/key-abc123")
  ∧ ∃ cmd rest,
      trace (JobListResource.post (E := werkzeug_exceptions) example_config
               (JobListResource.init example_config) example_args
               MemoryManager.start).2
      = schedule_job_call "fnndsc/pl-simpledsapp" cmd "abc123"
          (JobListResource.resources_dict_of example_args)
          (Some "/store/key-abc123") :: rest.
Proof.
  apply (share_dir_rule (E := werkzeug_exceptions) example_config
           example_args MemoryManager.start
           (SwarmManager example_config) "/store").
  - by vm_compute.
  - intros _. by vm_compute.
Defined.




(** ** Tokens: [split] and [join] *)

Section Tokens.
Implicit Types s t tok rest : string.

Lemma has_space_app s t : has_space (s +:+ t) = has_space s || has_space t.
Proof.
  induction s as [|c s IH]; [done|].
  rewrite app_String. cbn [has_space]. by rewrite IH, orb_assoc.
Qed.

Lemma split_go_token t : ∀ tok rest, has_space t = false →
  split_go tok (t +:+ rest) = split_go (tok +:+ t) rest.
Proof.
  induction t as [|c t IH]; intros tok rest Ht.
  - by rewrite app_empty_r.
  - cbn [has_space] in Ht. apply orb_false_iff in Ht as [Hc Ht].
    rewrite app_String. cbn [split_go]. rewrite Hc, IH by done.
    by rewrite app_assoc_s.
Qed.

(** Splitting distributes over a cut at a whitespace character. *)
Lemma split_go_cut c s : ∀ tok t, isspace c = true →
  split_go tok (s +:+ String c t) = split_go tok s ++ split_go "" t.
Proof.
  induction s as [|d s IH]; intros tok t Hc.
  - change ("" +:+ String c t) with (String c t). cbn [split_go].
    rewrite Hc. by case_decide.
  - rewrite app_String. cbn [split_go]. destruct (isspace d).
    + by rewrite IH, app_assoc.
    + by apply IH.
Qed.

Lemma split_cut s t : split (s +:+ " " +:+ t) = split s ++ split t.
Proof. by apply split_go_cut. Qed.

Lemma split_go_tokens s : ∀ tok, has_space tok = false →
  Forall token_like (split_go tok s).
Proof.
  induction s as [|c s IH]; intros tok Htok; cbn [split_go].
  - case_decide; [done|]. by apply Forall_singleton.
  - destruct (isspace c) eqn:Hc.
    + apply Forall_app. split; [|by apply IH].
      case_decide; [done|]. by apply Forall_singleton.
    + apply IH. rewrite has_space_app. cbn [has_space].
      by rewrite Htok, Hc.
Qed.

Lemma split_tokens s : Forall token_like (split s).
Proof. by apply split_go_tokens. Qed.

Lemma split_token t : token_like t → split t = [t].
Proof.
  intros [Hne Ht]. unfold split.
  assert (Hgo : split_go "" (t +:+ "") = [t]).
  { rewrite split_go_token by done. change ("" +:+ t) with t.
    cbn [split_go]. by rewrite decide_False. }
  by rewrite app_empty_r in Hgo.
Qed.

(** Joining tokens with single spaces and splitting again gives the tokens
    back. *)
Lemma split_join (toks : list string) :
  Forall token_like toks → split (join " " toks) = toks.
Proof.
  induction 1 as [|t toks Ht _ IH]; [done|].
  destruct toks as [|t' toks]; [by apply split_token|].
  change (join " " (t :: t' :: toks)) with (t +:+ " " +:+ join " " (t' :: toks)).
  by rewrite split_cut, IH, split_token.
Qed.
End Tokens.

Section ScanMore.
Variable inputdir : string.
Variable path_flags : list string.

Lemma scan_idemp args : ∀ hit,
  scan inputdir path_flags hit (scan inputdir path_flags hit args)
  = scan inputdir path_flags hit args.
Proof.
  induction args as [|a rest IH]; intros hit; [done|].
  cbn [scan]. destruct hit; by rewrite IH.
Qed.

Lemma scan_token_like args : ∀ hit,
  token_like inputdir → Forall token_like args →
  Forall token_like (scan inputdir path_flags hit args).
Proof.
  induction args as [|a rest IH]; intros hit Hin Hargs; [done|].
  apply Forall_cons in Hargs as [Ha Hrest]. cbn [scan].
  apply Forall_cons. split; [by destruct hit|by apply IH].
Qed.

(** Only the membership of tokens in [path_flags] matters to the scan. *)
Lemma scan_ext (path_flags' : list string) args : ∀ hit,
  (∀ t, token_like t → t ∈ path_flags ↔ t ∈ path_flags') →
  token_like inputdir → Forall token_like args →
  scan inputdir path_flags hit args = scan inputdir path_flags' hit args.
Proof.
  induction args as [|a rest IH]; intros hit Hext Hin Hargs; [done|].
  apply Forall_cons in Hargs as [Ha Hrest]. cbn [scan].
  assert (Htok : token_like (if hit then inputdir else a)) by by destruct hit.
  rewrite (bool_decide_ext ((if hit then inputdir else a) ∈ path_flags)
             ((if hit then inputdir else a) ∈ path_flags') (Hext _ Htok)).
  f_equal. by apply IH.
Qed.
End ScanMore.

Lemma token_like_inputdir : token_like "/share/incoming".
Proof. by apply (bool_decide_unpack _). Qed.

(** ** The command builder: further properties *)

(** X1. The loop of [build_app_cmd] raises on no token list and keeps the
    number of tokens, and [build_app_cmd] returns a command on every input,
    whatever the flags and the job kind: no [IndexError] can come out of
    it. *)
Theorem build_app_cmd_never_raises (self : JobListResource.t)
    (path_flags args : list string)
    (cmd_args cmd_path_flags selfpath selfexec execshell plugin_type : string) :
  (∃ r, JobListResource.subst_tokens self path_flags args = Ok r
     ∧ length r = length args)
  ∧ ∃ cmd, JobListResource.build_app_cmd self cmd_args cmd_path_flags selfpath
             selfexec execshell plugin_type = Ok cmd.
Proof.
  split; [|apply build_app_cmd_total].
  eexists. split; [apply subst_tokens_scan|apply scan_length].
Qed.

(** X2. For a job kind other than [ds], [fs] and [ts] the command is only
    [execshell] and the executable path: the argument string and both
    directories are left out. *)
Theorem build_app_cmd_other_kind (self : JobListResource.t)
    (cmd_args cmd_path_flags selfpath selfexec execshell plugin_type : string) :
  plugin_type ∉ ["ds"; "fs"; "ts"] →
  JobListResource.build_app_cmd self cmd_args cmd_path_flags selfpath selfexec
    execshell plugin_type
  = Ok (execshell +:+ " " +:+ path_join selfpath selfexec).
Proof.
  intros Hkind. unfold JobListResource.build_app_cmd.
  rewrite rewrite_args_scan. cbn [mbind result_bind].
  rewrite decide_False by (intros ->; apply Hkind; set_solver).
  rewrite bool_decide_eq_false_2; [done|].
  intros Hin. apply Hkind. by apply elem_of_cons; right.
Qed.

Lemma build_app_cmd_other_kind_witness :
  JobListResource.build_app_cmd (JobListResource.init ∅) "--dir /x" "--dir"
    "/usr/src/app" "app.py" "python3" "xs"
  = Ok "python3 /usr/src/app/app.py".
Proof.
  apply (build_app_cmd_other_kind (JobListResource.init ∅) "--dir /x" "--dir"
           "/usr/src/app" "app.py" "python3" "xs").
  apply (bool_decide_unpack _). by vm_compute.
Defined.

(** X3. With a non-empty [cmd_path_flags], splitting the rewritten argument
    string on whitespace gives back exactly the rewritten tokens: joining
    merges no two tokens and cuts none, and every token is non-empty and free
    of whitespace. *)
Theorem rewritten_string_tokens (app_config : config)
    (cmd_args cmd_path_flags : string) :
  cmd_path_flags ≠ "" →
  ∃ r rewritten,
    JobListResource.subst_tokens (JobListResource.init app_config)
      (split_sep "," cmd_path_flags) (split cmd_args) = Ok r
    ∧ JobListResource.rewrite_args (JobListResource.init app_config) cmd_args
        cmd_path_flags = Ok rewritten
    ∧ split rewritten = r
    ∧ Forall token_like r.
Proof.
  intros Hne. do 2 eexists.
  split; [apply subst_tokens_scan|].
  split; [by rewrite rewrite_args_scan, decide_False|].
  assert (Hr : Forall token_like
                 (scan "/share/incoming" (split_sep "," cmd_path_flags) false
                    (split cmd_args))).
  { apply scan_token_like; [apply token_like_inputdir|apply split_tokens]. }
  split; [by apply split_join|exact Hr].
Qed.

Lemma rewritten_string_tokens_witness :
  ∃ rewritten,
    JobListResource.rewrite_args (JobListResource.init ∅)
      "  --dir   /local/a  --n 4 " "--dir" = Ok rewritten
    ∧ split rewritten = ["--dir"; "/share/incoming"; "--n"; "4"].
Proof.
  destruct (rewritten_string_tokens ∅ "  --dir   /local/a  --n 4 " "--dir")
    as (r & rewritten & Hr & Hrw & Hsplit & _); [done|].
  exists rewritten. split; [exact Hrw|].
  rewrite Hsplit. vm_compute in Hr. by injection Hr as <-.
Defined.

(** X4. Rewriting is idempotent: running the argument rewrite of
    [build_app_cmd] on an argument string it has already rewritten, with the
    same flags, returns that string unchanged. *)
Theorem rewrite_args_idempotent (app_config : config)
    (cmd_args cmd_path_flags : string) :
  ∃ rewritten,
    JobListResource.rewrite_args (JobListResource.init app_config) cmd_args
      cmd_path_flags = Ok rewritten
    ∧ JobListResource.rewrite_args (JobListResource.init app_config) rewritten
        cmd_path_flags = Ok rewritten.
Proof.
  eexists. split; [apply rewrite_args_scan|].
  rewrite rewrite_args_scan. case_decide as Hf; [done|].
  cbn [JobListResource.init JobListResource.str_app_container_inputdir].
  rewrite split_join, scan_idemp; [done|].
  apply scan_token_like; [apply token_like_inputdir|apply split_tokens].
Qed.

(** X5. The directories are the last arguments of the command.  Split on
    whitespace, a [ds] command is the tokens of [execshell], of the
    executable path and of the rewritten argument string, then
    ["/share/incoming"] and ["/share/outgoing"]; an [fs] or [ts] command ends
    with ["/share/outgoing"] alone. *)
Theorem build_app_cmd_tokens (app_config : config)
    (cmd_args cmd_path_flags selfpath selfexec execshell : string) :
  let self := JobListResource.init app_config in
  let build := JobListResource.build_app_cmd self cmd_args cmd_path_flags
                 selfpath selfexec execshell in
  ∃ rewritten cmd_ds cmd_out,
    JobListResource.rewrite_args self cmd_args cmd_path_flags = Ok rewritten
    ∧ build "ds" = Ok cmd_ds
    ∧ split cmd_ds = split execshell ++ split (path_join selfpath selfexec)
                     ++ split rewritten
                     ++ ["/share/incoming"; "/share/outgoing"]
    ∧ build "fs" = Ok cmd_out ∧ build "ts" = Ok cmd_out
    ∧ split cmd_out = split execshell ++ split (path_join selfpath selfexec)
                      ++ split rewritten ++ ["/share/outgoing"].
Proof.
  intros self build. subst build.
  unfold JobListResource.build_app_cmd. rewrite rewrite_args_scan.
  cbn [mbind result_bind]. do 3 eexists.
  split; [done|]. split; [done|]. split.
  { rewrite !app_assoc_s, !split_cut. done. }
  split; [done|]. split; [done|].
  rewrite !app_assoc_s, !split_cut. done.
Qed.

(** X6. When the flags are given and no token of the argument string is one
    of them, the rewrite changes no token: the argument string comes back as
    its tokens joined with single spaces. *)
Theorem rewrite_args_without_flag_tokens (app_config : config)
    (cmd_args cmd_path_flags : string) :
  cmd_path_flags ≠ "" →
  untouched (split_sep "," cmd_path_flags) (split cmd_args) →
  JobListResource.subst_tokens (JobListResource.init app_config)
    (split_sep "," cmd_path_flags) (split cmd_args) = Ok (split cmd_args)
  ∧ JobListResource.rewrite_args (JobListResource.init app_config) cmd_args
      cmd_path_flags = Ok (join " " (split cmd_args)).
Proof.
  intros Hne Hun.
  rewrite subst_tokens_scan, rewrite_args_scan, decide_False by done.
  by rewrite !(scan_untouched _ _ _ Hun).
Qed.

Lemma rewrite_args_without_flag_tokens_witness :
  JobListResource.rewrite_args (JobListResource.init ∅) " --n  4 " "--dir"
  = Ok "--n 4".
Proof.
  apply (rewrite_args_without_flag_tokens ∅ " --n  4 " "--dir"); [done|].
  repeat (apply Forall_cons; split;
          [apply (bool_decide_unpack _); by vm_compute|]).
  apply Forall_nil_2.
Defined.

(** X7. A flag of [cmd_path_flags] that is empty or contains whitespace (as
    [" --other"] in ["--dir, --other"], which is split on commas only) never
    matches a token: dropping such flags changes nothing. *)
Theorem flags_with_whitespace_are_dead (app_config : config)
    (cmd_args cmd_path_flags : string) :
  let self := JobListResource.init app_config in
  let path_flags := split_sep "," cmd_path_flags in
  JobListResource.subst_tokens self path_flags (split cmd_args)
  = JobListResource.subst_tokens self (filter token_like path_flags)
      (split cmd_args)
  ∧ JobListResource.rewrite_args self "--dir a --other b" "--dir, --other"
    = Ok "--dir /share/incoming --other b".
Proof.
  intros self path_flags. split; [|by vm_compute].
  rewrite !subst_tokens_scan. f_equal.
  apply scan_ext; [|apply token_like_inputdir|apply split_tokens].
  intros t Ht. rewrite list_elem_of_filter. tauto.
Qed.

(** ** The handlers: further properties *)

Section Protocol.
Context {World Job : Type} {E : HTTPErrors}.

Lemma cio_pure {A} (r : result A) :
  calls_in_order [] (lift r : handler World Job A).
Proof.
  intros s. exists []. split; [by rewrite app_nil_r|].
  unfold lift. cbn. by destruct r.
Qed.

Lemma cio_getkey d k : calls_in_order [] (getkey d k : handler World Job string).
Proof.
  unfold getkey. destruct (d !! k); [apply (cio_pure (Ok _))|].
  apply (cio_pure (Raise KeyError)).
Qed.

Lemma cio_invoke {A} obj (c : call Job)
    (method : manager → World → result A * World) :
  calls_in_order [method_name c] (invoke obj c method).
Proof.
  intros s. unfold invoke. destruct obj as [mgr|].
  - destruct (method mgr (world s)) as [[a|e] w]; exists [c];
      (split; [done|]); cbn; reflexivity.
  - exists []. split; [by rewrite app_nil_r|]. apply prefix_nil.
Qed.

Lemma cio_try_abort {A} methods (m : handler World Job A) :
  calls_in_order methods m →
  calls_in_order methods
    (try_except_ManagerException m (λ e, abort (status_code e) (str e))).
Proof.
  intros Hm s. destruct (Hm s) as (new & Hnew & Hseq). exists new.
  unfold try_except_ManagerException.
  destruct (m s) as [[a|e] s1]; [done|]. by destruct e.
Qed.

Lemma cio_bind {A B} ms1 ms2 methods (m : handler World Job A)
    (f : A → handler World Job B) :
  methods = ms1 ++ ms2 →
  calls_in_order ms1 m → (∀ a, calls_in_order ms2 (f a)) →
  calls_in_order methods (m ≫= f).
Proof.
  intros -> Hm Hf s. rewrite bind_unfold.
  destruct (Hm s) as (new1 & Hnew1 & Hseq1).
  destruct (m s) as [[a|e] s1]; cbn [fst snd] in *.
  - destruct (Hf a s1) as (new2 & Hnew2 & Hseq2).
    exists (new1 ++ new2). rewrite Hnew2, Hnew1, app_assoc. split; [done|].
    rewrite fmap_app, Hseq1.
    destruct ((f a s1).1); [by rewrite Hseq2|by apply prefix_app].
  - exists new1. split; [done|]. by apply prefix_app_r.
Qed.
End Protocol.

Ltac cio_steps :=
  repeat lazymatch goal with
  | |- calls_in_order _ (getkey _ _) => apply cio_getkey
  | |- calls_in_order _ (lift _) => apply cio_pure
  | |- calls_in_order _ (hret ?a) => apply (cio_pure (Ok a))
  | |- calls_in_order _ (invoke _ _ _) => apply cio_invoke
  | |- calls_in_order _ (try_except_ManagerException _ _) =>
      apply cio_try_abort
  | |- calls_in_order _ (lift _ ≫= _) =>
      eapply (cio_bind [] _ _ _ _ eq_refl); [|intros ?]
  | |- calls_in_order _ (getkey _ _ ≫= _) =>
      eapply (cio_bind [] _ _ _ _ eq_refl); [|intros ?]
  | |- calls_in_order _ (_ ≫= _) =>
      eapply (cio_bind [_] _ _ _ _ eq_refl); [|intros ?]
  end.

(** X8. The calls of each handler to the manager follow a fixed protocol:
    [post] calls [schedule_job], [get_job_info], [get_job_logs]; [get] calls
    [get_job], [get_job_info], [get_job_logs]; [delete] calls [get_job],
    [remove_job]; each in that order and at most once (nothing is retried,
    and no other method is called).  A handler that returns has made all of
    its calls; one that raises has made a prefix of them. *)
Theorem handlers_call_protocol {World Job : Type} {M : AbstractManager World Job} {E : HTTPErrors}
    (app_config : config) (args : request_args) (job_id : string) :
  calls_in_order ["schedule_job"; "get_job_info"; "get_job_logs"]
    (JobListResource.post app_config (JobListResource.init app_config) args)
  ∧ calls_in_order ["get_job"; "get_job_info"; "get_job_logs"]
      (JobResource.get (JobResource.init app_config) job_id)
  ∧ calls_in_order ["get_job"; "remove_job"]
      (JobResource.delete (JobResource.init app_config) job_id).
Proof.
  split; [unfold JobListResource.post; cio_steps|].
  split; [unfold JobResource.get; cio_steps|].
  unfold JobResource.delete; cio_steps.
Qed.

Lemma invoke_Some {World Job A : Type} (mgr : manager) (c : call Job)
    (method : manager → World → result A * World) (s : state World Job) :
  invoke (Some mgr) c method s
  = ((method mgr (world s)).1,
     mk_state (method mgr (world s)).2 (trace s ++ [c])).
Proof. unfold invoke. by destruct (method mgr (world s)). Qed.

Ltac post_start Hmgr Hcmd Hshare :=
  unfold JobListResource.post; rewrite Hcmd, Hshare;
  cbn [JobListResource.init JobListResource.container_env];
  rewrite Hmgr, !bind_lift_Ok.

Ltac guarded_call Hcall :=
  rewrite bind_unfold, try_invoke_Some; cbn [world trace];
  rewrite Hcall; cbn [fst snd world trace].

Ltac plain_call Hcall :=
  rewrite bind_unfold, invoke_Some; cbn [world trace];
  rewrite Hcall; cbn [fst snd world trace].

(** X9. A successful submission.  When [schedule_job], [get_job_info] and
    [get_job_logs] return and the description has its five entries, [post]
    answers 201 with the stripped job id, the five entries of the description
    and the logs; the three calls are made in that order, each on the cluster
    as the call before left it. *)
Theorem post_success {World Job : Type} {M : AbstractManager World Job} {E : HTTPErrors}
    (app_config : config) (args : request_args) (s : state World Job)
    (mgr : manager) (cmd : string) (share_dir : option string) (job : Job)
    (job_info : gmap string string) (job_logs : string) (w1 w2 w3 : World)
    (r_image r_cmd r_status r_message r_timestamp : string) :
  let self := JobListResource.init app_config in
  let job_id := lstrip "/" (jid args) in
  let resources := JobListResource.resources_dict_of args in
  get_compute_mgr app_config (app_config !! "CONTAINER_ENV") = Some mgr →
  JobListResource.build_app_cmd self (cmd_args args) (cmd_path_flags args)
    (selfpath args) (selfexec args) (execshell args) (type_ args) = Ok cmd →
  JobListResource.share_dir_of app_config job_id = Ok share_dir →
  schedule_job mgr (image args) cmd job_id resources share_dir (world s)
  = (Ok job, w1) →
  get_job_info mgr job w1 = (Ok job_info, w2) →
  get_job_logs mgr job w2 = (Ok job_logs, w3) →
  job_info !! "image" = Some r_image →
  job_info !! "cmd" = Some r_cmd →
  job_info !! "status" = Some r_status →
  job_info !! "message" = Some r_message →
  job_info !! "timestamp" = Some r_timestamp →
  JobListResource.post app_config self args s
  = (Ok (mk_job_record job_id r_image r_cmd r_status r_message r_timestamp
           job_logs, 201%Z),
     mk_state w3
       (trace s ++ [schedule_job_call (image args) cmd job_id resources
                      share_dir;
                    get_job_info_call job; get_job_logs_call job])).
Proof.
  intros self job_id resources Hmgr Hcmd Hshare Hsched Hinfo Hlogs
    Hi Hc Hst Hm Hts.
  subst self job_id resources. post_start Hmgr Hcmd Hshare.
  guarded_call Hsched. plain_call Hinfo. plain_call Hlogs.
  unfold getkey. rewrite !bind_unfold, Hi. cbn [hret].
  rewrite Hc. cbn [hret]. rewrite Hst. cbn [hret]. rewrite Hm. cbn [hret].
  rewrite Hts. cbn [hret]. by rewrite <- !app_assoc.
Qed.

Lemma post_success_witness :
  @JobListResource.post unit string
    (scripted (Ok "abc123") (Ok "abc123") (Ok full_info) (Ok "done") (Ok ()))
    werkzeug_exceptions example_config
    (JobListResource.init example_config) example_args
    (mk_state () [])
  = (Ok (mk_job_record "abc123" "img" "cmd" "started" "" "0" "done", 201%Z),
     mk_state ()
       [schedule_job_call "fnndsc/pl-simpledsapp"
          "python3 /usr/src/simpledsapp/simpledsapp.py --dir /share/incoming --n 4 /share/incoming /share/outgoing"
          "abc123" (JobListResource.resources_dict_of example_args)
          (Some "/store/key-abc123");
        get_job_info_call "abc123"; get_job_logs_call "abc123"]).
Proof.
  apply (post_success (E := werkzeug_exceptions) (M := scripted (Ok "abc123") (Ok "abc123")
                              (Ok full_info) (Ok "done") (Ok ()))
           example_config example_args (mk_state () [])
           (SwarmManager example_config)
           "python3 /usr/src/simpledsapp/simpledsapp.py --dir /share/incoming --n 4 /share/incoming /share/outgoing"
           (Some "/store/key-abc123") "abc123" full_info "done" () () ()
           "img" "cmd" "started" "" "0"); by vm_compute.
Defined.

(** X10. A description without one of its five entries.  When the three
    calls return but [job_info] lacks ["image"], ["cmd"], ["status"],
    ["message"] or ["timestamp"], [post] raises [KeyError]; by then the job
    has been scheduled and all three calls have been made. *)
Theorem post_missing_key {World Job : Type} {M : AbstractManager World Job} {E : HTTPErrors}
    (app_config : config) (args : request_args) (s : state World Job)
    (mgr : manager) (cmd : string) (share_dir : option string) (job : Job)
    (job_info : gmap string string) (job_logs : string) (w1 w2 w3 : World)
    (k : string) :
  let self := JobListResource.init app_config in
  let job_id := lstrip "/" (jid args) in
  let resources := JobListResource.resources_dict_of args in
  get_compute_mgr app_config (app_config !! "CONTAINER_ENV") = Some mgr →
  JobListResource.build_app_cmd self (cmd_args args) (cmd_path_flags args)
    (selfpath args) (selfexec args) (execshell args) (type_ args) = Ok cmd →
  JobListResource.share_dir_of app_config job_id = Ok share_dir →
  schedule_job mgr (image args) cmd job_id resources share_dir (world s)
  = (Ok job, w1) →
  get_job_info mgr job w1 = (Ok job_info, w2) →
  get_job_logs mgr job w2 = (Ok job_logs, w3) →
  k ∈ ["image"; "cmd"; "status"; "message"; "timestamp"] →
  job_info !! k = None →
  JobListResource.post app_config self args s
  = (Raise KeyError,
     mk_state w3
       (trace s ++ [schedule_job_call (image args) cmd job_id resources
                      share_dir;
                    get_job_info_call job; get_job_logs_call job])).
Proof.
  intros self job_id resources Hmgr Hcmd Hshare Hsched Hinfo Hlogs Hk Hnone.
  subst self job_id resources. post_start Hmgr Hcmd Hshare.
  guarded_call Hsched. plain_call Hinfo. plain_call Hlogs.
  rewrite <- !app_assoc. cbn [app]. unfold getkey.
  destruct (job_info !! "image") eqn:Hi; [|done].
  destruct (job_info !! "cmd") eqn:Hc; [|by rewrite bind_unfold].
  destruct (job_info !! "status") eqn:Hst; [|by rewrite !bind_unfold].
  destruct (job_info !! "message") eqn:Hm; [|by rewrite !bind_unfold].
  destruct (job_info !! "timestamp") eqn:Hts; [|by rewrite !bind_unfold].
  exfalso. rewrite !elem_of_cons, elem_of_nil in Hk.
  destruct Hk as [->|[->|[->|[->|[->|[]]]]]]; congruence.
Qed.

Lemma post_missing_key_witness :
  (@JobListResource.post unit string
     (scripted (Ok "abc123") (Ok "abc123") (Ok (delete "cmd" full_info))
        (Ok "done") (Ok ()))
     werkzeug_exceptions example_config
    (JobListResource.init example_config) example_args
     (mk_state () [])).1
  = Raise KeyError.
Proof.
  rewrite (post_missing_key
             (E := werkzeug_exceptions) (M := scripted (Ok "abc123") (Ok "abc123")
                     (Ok (delete "cmd" full_info)) (Ok "done") (Ok ()))
             example_config example_args (mk_state () [])
             (SwarmManager example_config)
             "python3 /usr/src/simpledsapp/simpledsapp.py --dir /share/incoming --n 4 /share/incoming /share/outgoing"
             (Some "/store/key-abc123") "abc123" (delete "cmd" full_info)
             "done" () () () "cmd"); try by vm_compute.
  apply (bool_decide_unpack _). by vm_compute.
Defined.

(** X11. Only the [schedule_job] call of [post] is guarded.  An exception
    raised by [get_job_info] or by [get_job_logs], a [ManagerException]
    included, comes out of [post] as it is and is not turned into an HTTP
    error; the job has been scheduled by then. *)
Theorem post_later_errors_propagate {World Job : Type}
    {M : AbstractManager World Job} {E : HTTPErrors}
    (app_config : config) (args : request_args) (s : state World Job)
    (mgr : manager) (cmd : string) (share_dir : option string) (job : Job)
    (w1 : World) :
  let self := JobListResource.init app_config in
  let job_id := lstrip "/" (jid args) in
  let resources := JobListResource.resources_dict_of args in
  let scheduled := schedule_job_call (image args) cmd job_id resources
                     share_dir in
  get_compute_mgr app_config (app_config !! "CONTAINER_ENV") = Some mgr →
  JobListResource.build_app_cmd self (cmd_args args) (cmd_path_flags args)
    (selfpath args) (selfexec args) (execshell args) (type_ args) = Ok cmd →
  JobListResource.share_dir_of app_config job_id = Ok share_dir →
  schedule_job mgr (image args) cmd job_id resources share_dir (world s)
  = (Ok job, w1) →
  (∀ e w2, get_job_info mgr job w1 = (Raise e, w2) →
     JobListResource.post app_config self args s
     = (Raise e, mk_state w2 (trace s ++ [scheduled; get_job_info_call job])))
  ∧ (∀ job_info w2 e w3,
       get_job_info mgr job w1 = (Ok job_info, w2) →
       get_job_logs mgr job w2 = (Raise e, w3) →
       JobListResource.post app_config self args s
       = (Raise e,
          mk_state w3 (trace s ++ [scheduled; get_job_info_call job;
                                   get_job_logs_call job]))).
Proof.
  intros self job_id resources scheduled Hmgr Hcmd Hshare Hsched.
  subst self job_id resources scheduled. split.
  - intros e w2 Hinfo. post_start Hmgr Hcmd Hshare.
    guarded_call Hsched. plain_call Hinfo. by rewrite <- !app_assoc.
  - intros job_info w2 e w3 Hinfo Hlogs. post_start Hmgr Hcmd Hshare.
    guarded_call Hsched. plain_call Hinfo. plain_call Hlogs.
    by rewrite <- !app_assoc.
Qed.

Lemma post_later_errors_propagate_witness :
  (@JobListResource.post unit string
     (scripted (Ok "abc123") (Ok "abc123")
        (Raise (ManagerError (mk_ManagerException "unavailable" 503)))
        (Ok "done") (Ok ()))
     werkzeug_exceptions example_config
    (JobListResource.init example_config) example_args
     (mk_state () [])).1
  = Raise (ManagerError (mk_ManagerException "unavailable" 503)).
Proof.
  destruct (post_later_errors_propagate
              (E := werkzeug_exceptions) (M := scripted (Ok "abc123") (Ok "abc123")
                      (Raise (ManagerError
                                (mk_ManagerException "unavailable" 503)))
                      (Ok "done") (Ok ()))
              example_config example_args (mk_state () [])
              (SwarmManager example_config)
              "python3 /usr/src/simpledsapp/simpledsapp.py --dir /share/incoming --n 4 /share/incoming /share/outgoing"
              (Some "/store/key-abc123") "abc123" ())
    as [Hinfo _]; [by vm_compute..|].
  by rewrite (Hinfo _ () eq_refl).
Defined.

(** X12. Of the exceptions of [schedule_job], only a [ManagerException] is
    translated: any other exception comes out of [post] as it is, after that
    single call. *)
Theorem post_other_exception_propagates {World Job : Type}
    {M : AbstractManager World Job} {E : HTTPErrors}
    (app_config : config) (args : request_args) (s : state World Job)
    (mgr : manager) (cmd : string) (share_dir : option string) (e : exn)
    (w1 : World) :
  let self := JobListResource.init app_config in
  let job_id := lstrip "/" (jid args) in
  let resources := JobListResource.resources_dict_of args in
  get_compute_mgr app_config (app_config !! "CONTAINER_ENV") = Some mgr →
  JobListResource.build_app_cmd self (cmd_args args) (cmd_path_flags args)
    (selfpath args) (selfexec args) (execshell args) (type_ args) = Ok cmd →
  JobListResource.share_dir_of app_config job_id = Ok share_dir →
  schedule_job mgr (image args) cmd job_id resources share_dir (world s)
  = (Raise e, w1) →
  (∀ me, e ≠ ManagerError me) →
  JobListResource.post app_config self args s
  = (Raise e,
     mk_state w1 (trace s ++ [schedule_job_call (image args) cmd job_id
                                resources share_dir])).
Proof.
  intros self job_id resources Hmgr Hcmd Hshare Hsched Hother.
  subst self job_id resources. post_start Hmgr Hcmd Hshare.
  guarded_call Hsched. destruct e as [| | | |me| |]; try done.
  by destruct (Hother me).
Qed.

Lemma post_other_exception_propagates_witness :
  @JobListResource.post unit string
    (scripted (Raise KeyError) (Ok "abc123") (Ok full_info) (Ok "done") (Ok ()))
    werkzeug_exceptions example_config
    (JobListResource.init example_config) example_args
    (mk_state () [])
  = (Raise KeyError,
     mk_state ()
       [schedule_job_call "fnndsc/pl-simpledsapp"
          "python3 /usr/src/simpledsapp/simpledsapp.py --dir /share/incoming --n 4 /share/incoming /share/outgoing"
          "abc123" (JobListResource.resources_dict_of example_args)
          (Some "/store/key-abc123")]).
Proof.
  apply (post_other_exception_propagates
           (E := werkzeug_exceptions) (M := scripted (Raise KeyError) (Ok "abc123") (Ok full_info)
                   (Ok "done") (Ok ()))
           example_config example_args (mk_state () [])
           (SwarmManager example_config)
           "python3 /usr/src/simpledsapp/simpledsapp.py --dir /share/incoming --n 4 /share/incoming /share/outgoing"
           (Some "/store/key-abc123") KeyError ()); by vm_compute.
Defined.

(** X13. The share directory lies under [STOREBASE].  For storage type
    [host] or [nfs] it is [STOREBASE], a ['/'] unless [STOREBASE] is empty or
    already ends with one, then ["key-"] and the job id: since ["key-"] comes
    first, no job id can make the path join drop [STOREBASE]. *)
Theorem share_dir_under_storebase (app_config : config)
    (job_id storebase : string) :
  app_config !! "STORAGE_TYPE" ∈ [Some "host"; Some "nfs"] →
  app_config !! "STOREBASE" = Some storebase →
  JobListResource.share_dir_of app_config job_id
  = Ok (Some (storebase
              +:+ (if bool_decide (storebase = "") || endswith "/" storebase
                   then "" else "/")
              +:+ "key-" +:+ job_id)).
Proof.
  intros Hmode Hbase. unfold JobListResource.share_dir_of.
  rewrite bool_decide_eq_true_2, Hbase by done.
  unfold path_join.
  change (startswith "/" ("key-" +:+ job_id)) with false. cbv iota.
  by destruct (bool_decide (storebase = "") || endswith "/" storebase).
Qed.

Lemma share_dir_under_storebase_witness :
  JobListResource.share_dir_of
    (<["STORAGE_TYPE" := "nfs"]> (<["STOREBASE" := "/mnt/store/"]> ∅)) "/etc"
  = Ok (Some "/mnt/store/key-/etc").
Proof.
  rewrite (share_dir_under_storebase
             (<["STORAGE_TYPE" := "nfs"]> (<["STOREBASE" := "/mnt/store/"]> ∅))
             "/etc" "/mnt/store/"); [done| |by vm_compute].
  apply (bool_decide_unpack _). by vm_compute.
Defined.

(** X14. A missing [STOREBASE].  With storage type [host] or [nfs] and no
    [STOREBASE] in the configuration, [post] raises [TypeError] from the path
    join before it selects a manager: nothing is scheduled. *)
Theorem post_missing_storebase {World Job : Type} {M : AbstractManager World Job} {E : HTTPErrors}
    (app_config : config) (args : request_args) (s : state World Job) :
  app_config !! "STORAGE_TYPE" ∈ [Some "host"; Some "nfs"] →
  app_config !! "STOREBASE" = None →
  JobListResource.post app_config (JobListResource.init app_config) args s
  = (Raise TypeError, s).
Proof.
  intros Hmode Hbase. unfold JobListResource.post.
  destruct (build_app_cmd_total (JobListResource.init app_config)
              (cmd_args args) (cmd_path_flags args) (selfpath args)
              (selfexec args) (execshell args) (type_ args)) as [cmd ->].
  rewrite bind_lift_Ok. unfold JobListResource.share_dir_of.
  by rewrite bool_decide_eq_true_2, Hbase.
Qed.

Lemma post_missing_storebase_witness :
  JobListResource.post (E := werkzeug_exceptions) (<["CONTAINER_ENV" := "swarm"]>
                          (<["STORAGE_TYPE" := "host"]> ∅))
    (JobListResource.init (<["CONTAINER_ENV" := "swarm"]>
                             (<["STORAGE_TYPE" := "host"]> ∅)))
    example_args MemoryManager.start
  = (Raise TypeError, MemoryManager.start).
Proof.
  apply (post_missing_storebase (E := werkzeug_exceptions)
           (<["CONTAINER_ENV" := "swarm"]> (<["STORAGE_TYPE" := "host"]> ∅))
           example_args MemoryManager.start); [|by vm_compute].
  apply (bool_decide_unpack _). by vm_compute.
Defined.

(** X15. A successful fetch.  When [get_job], [get_job_info] and
    [get_job_logs] return and the description has its five entries, [get]
    returns the record of the stripped job id; the three calls are made in
    that order. *)
Theorem get_success {World Job : Type} {M : AbstractManager World Job} {E : HTTPErrors}
    (self : JobResource.t) (job_id : string) (s : state World Job)
    (mgr : manager) (job : Job) (job_info : gmap string string)
    (job_logs : string) (w1 w2 w3 : World)
    (r_image r_cmd r_status r_message r_timestamp : string) :
  JobResource.compute_mgr self = Some mgr →
  get_job mgr (lstrip "/" job_id) (world s) = (Ok job, w1) →
  get_job_info mgr job w1 = (Ok job_info, w2) →
  get_job_logs mgr job w2 = (Ok job_logs, w3) →
  job_info !! "image" = Some r_image →
  job_info !! "cmd" = Some r_cmd →
  job_info !! "status" = Some r_status →
  job_info !! "message" = Some r_message →
  job_info !! "timestamp" = Some r_timestamp →
  JobResource.get self job_id s
  = (Ok (mk_job_record (lstrip "/" job_id) r_image r_cmd r_status r_message
           r_timestamp job_logs),
     mk_state w3 (trace s ++ [get_job_call (lstrip "/" job_id);
                              get_job_info_call job; get_job_logs_call job])).
Proof.
  intros Hmgr Hget Hinfo Hlogs Hi Hc Hst Hm Hts.
  unfold JobResource.get. rewrite Hmgr.
  guarded_call Hget. plain_call Hinfo. plain_call Hlogs.
  unfold getkey. rewrite !bind_unfold, Hi. cbn [hret].
  rewrite Hc. cbn [hret]. rewrite Hst. cbn [hret]. rewrite Hm. cbn [hret].
  rewrite Hts. cbn [hret]. by rewrite <- !app_assoc.
Qed.

Lemma get_success_witness :
  (JobResource.get (E := werkzeug_exceptions) (JobResource.init example_config) "/abc123" busy).1
  = Ok (mk_job_record "abc123" "fnndsc/pl-simpledsapp" "python3" "started" ""
          "0" "").
Proof.
  rewrite (get_success (E := werkzeug_exceptions) (JobResource.init example_config) "/abc123" busy
             (SwarmManager example_config)
             (MemoryManager.mk_job "abc123" "fnndsc/pl-simpledsapp" "python3")
             (<["image" := "fnndsc/pl-simpledsapp"]> (<["cmd" := "python3"]>
                (<["status" := "started"]> (<["message" := ""]>
                (<["timestamp" := "0"]> ∅)))))
             "" (world busy) (world busy) (world busy)
             "fnndsc/pl-simpledsapp" "python3" "started" "" "0");
    by vm_compute.
Defined.

(** X16. A failed lookup.  When [get_job] raises a [ManagerException], [get]
    and [delete] stop with the exception of [abort]: the HTTP error of its
    status code and message when the HTTP layer has an error class for the
    code, the [LookupError] of the failed lookup when it has none.  [get_job]
    is the only call made, so nothing is described and nothing is removed. *)
Theorem lookup_failure_surfaced {World Job : Type}
    {M : AbstractManager World Job} {E : HTTPErrors}
    (self : JobResource.t) (job_id : string) (s : state World Job)
    (mgr : manager) (e : ManagerException) (w1 : World) :
  JobResource.compute_mgr self = Some mgr →
  get_job mgr (lstrip "/" job_id) (world s) = (Raise (ManagerError e), w1) →
  let raised :=
    if bool_decide (status_code e ∈ default_exceptions)
    then HTTPException (status_code e) (str e)
    else LookupError in
  JobResource.get self job_id s
  = (Raise raised, mk_state w1 (trace s ++ [get_job_call (lstrip "/" job_id)]))
  ∧ JobResource.delete self job_id s
    = (Raise raised,
       mk_state w1 (trace s ++ [get_job_call (lstrip "/" job_id)])).
Proof.
  intros Hmgr Hget raised. subst raised. split.
  - unfold JobResource.get. rewrite Hmgr. by guarded_call Hget.
  - unfold JobResource.delete. rewrite Hmgr. by guarded_call Hget.
Qed.

Lemma lookup_failure_surfaced_witness :
  JobResource.delete (E := werkzeug_exceptions) (JobResource.init example_config) "/nojob" busy
  = (Raise (HTTPException 404 "job not found"),
     mk_state (world busy) [get_job_call "nojob"]).
Proof.
  apply (lookup_failure_surfaced (E := werkzeug_exceptions) (JobResource.init example_config) "/nojob"
           busy (SwarmManager example_config)
           (mk_ManagerException "job not found" 404) (world busy));
    by vm_compute.
Defined.

(** X17. Removal.  When [get_job] returns, [delete] calls [remove_job] on the
    job it found.  If that returns, [delete] answers 204 with an empty body;
    if it raises, a [ManagerException] included, the exception comes out as
    it is: [remove_job] is not guarded. *)
Theorem delete_removes {World Job : Type} {M : AbstractManager World Job} {E : HTTPErrors}
    (self : JobResource.t) (job_id : string) (s : state World Job)
    (mgr : manager) (job : Job) (w1 : World) :
  JobResource.compute_mgr self = Some mgr →
  get_job mgr (lstrip "/" job_id) (world s) = (Ok job, w1) →
  let calls := [get_job_call (lstrip "/" job_id); remove_job_call job] in
  (∀ w2, remove_job mgr job w1 = (Ok (), w2) →
     JobResource.delete self job_id s
     = (Ok ("", 204%Z), mk_state w2 (trace s ++ calls)))
  ∧ (∀ e w2, remove_job mgr job w1 = (Raise e, w2) →
       JobResource.delete self job_id s
       = (Raise e, mk_state w2 (trace s ++ calls))).
Proof.
  intros Hmgr Hget calls. subst calls. split.
  - intros w2 Hrm. unfold JobResource.delete. rewrite Hmgr.
    guarded_call Hget. plain_call Hrm. by rewrite <- !app_assoc.
  - intros e w2 Hrm. unfold JobResource.delete. rewrite Hmgr.
    guarded_call Hget. plain_call Hrm. by rewrite <- !app_assoc.
Qed.

Lemma delete_removes_witness :
  JobResource.delete (E := werkzeug_exceptions) (JobResource.init example_config) "/abc123" busy
  = (Ok ("", 204%Z),
     mk_state []
       [get_job_call "abc123";
        remove_job_call
          (MemoryManager.mk_job "abc123" "fnndsc/pl-simpledsapp" "python3")]).
Proof.
  destruct (delete_removes (E := werkzeug_exceptions) (JobResource.init example_config) "/abc123" busy
              (SwarmManager example_config)
              (MemoryManager.mk_job "abc123" "fnndsc/pl-simpledsapp" "python3")
              (world busy)) as [Hok _]; [by vm_compute..|].
  by rewrite (Hok [] eq_refl).
Defined.

(** X18. Backend selection.  [get_compute_mgr] gives the swarm and the
    kubernetes manager the configuration and builds the openshift manager
    without it; it returns a manager exactly for these three identifiers,
    compared as they are written, and [None] when none is configured. *)
Theorem get_compute_mgr_known (app_config : config)
    (container_env : option string) :
  get_compute_mgr app_config (Some "swarm") = Some (SwarmManager app_config)
  ∧ get_compute_mgr app_config (Some "kubernetes")
    = Some (KubernetesManager app_config)
  ∧ get_compute_mgr app_config (Some "openshift") = Some OpenShiftManager
  ∧ get_compute_mgr app_config (Some "Swarm") = None
  ∧ get_compute_mgr app_config None = None
  ∧ (is_Some (get_compute_mgr app_config container_env)
     ↔ known_backend container_env).
Proof.
  do 5 (split; [done|]). split.
  - intros [mgr Hmgr]. destruct (decide (known_backend container_env)); [done|].
    by rewrite get_compute_mgr_None in Hmgr.
  - unfold known_backend. rewrite !elem_of_cons, elem_of_nil.
    intros [->|[->|[->|[]]]]; by eexists.
Qed.

Lemma lstrip_slashes (s : string) :
  ∃ n, s = slashes n +:+ lstrip "/" s.
Proof.
  induction s as [|a s [n IH]]; [by exists 0|].
  cbn [lstrip]. case_decide as Ha.
  - subst a. exists (S n). cbn [slashes]. by rewrite app_String, <- IH.
  - by exists 0.
Qed.

(** X19. What the normalisation of a job id removes.  A job id is its
    stripped form preceded by ['/'] characters only: nothing but leading
    slashes is removed, slashes inside or at the end of the id are kept, and
    an id that does not begin with ['/'] is left as it is.  An id made of
    slashes alone becomes the empty id, which [get] still hands to the
    manager. *)
Theorem job_id_strip_only_leading_slashes {World Job : Type}
    {M : AbstractManager World Job} {E : HTTPErrors} (job_id : string) (n : nat)
    (mgr : manager) (s : state World Job) :
  (∃ k, job_id = slashes k +:+ lstrip "/" job_id)
  ∧ lstrip "/" (slashes n +:+ lstrip "/" job_id) = lstrip "/" job_id
  ∧ lstrip "/" (slashes n) = ""
  ∧ ∃ rest, trace (JobResource.get (JobResource.mk None (Some mgr))
                     (slashes n) s).2
            = trace s ++ get_job_call "" :: rest.
Proof.
  split; [apply lstrip_slashes|].
  assert (Hstrip : ∀ t, startswith "/" t = false →
            lstrip "/" (slashes n +:+ t) = t).
  { intros t Ht. induction n as [|n IH]; cbn [slashes].
    - change ("" +:+ t) with t. destruct t as [|a t]; [done|].
      cbn [lstrip]. cbn [startswith] in Ht.
      by rewrite decide_False by by intros ->.
    - rewrite app_String. cbn [lstrip]. by rewrite decide_True. }
  split; [apply Hstrip, lstrip_startswith|].
  assert (Hempty : lstrip "/" (slashes n) = "").
  { rewrite <- (app_empty_r (slashes n)). by apply Hstrip. }
  split; [exact Hempty|].
  unfold JobResource.get. cbn [JobResource.compute_mgr]. rewrite Hempty.
  apply bind_first_call.
  - by rewrite try_invoke_Some.
  - intros job.
    repeat first [ apply trace_inv_bind; [|intros ?]
                 | by apply trace_inv_invoke
                 | apply trace_inv_getkey
                 | apply trace_inv_ret ].
Qed.
